(** * VevorFridgeMonitor: the FE FE frame codec and the session logic of main.cpp

    A shallow embedding of [src/main.cpp]: the additive checksum, the decoder of
    the single-zone query response, the two command builders, the notification
    slot and the connect / query / disconnect logic of [loop].

    Conventions.
    - A byte ([uint8_t]) is [Init.Byte.byte]; its value is [byte.unsigned].
    - A [uint16_t], [uint32_t] or [unsigned long] is a [Z] with the wrap-around
      written out ([wrap16], [wrap32]); the target is the ESP32, where
      [unsigned long] and [size_t] are 32 bits wide and [int] is 32 bits wide.
    - A buffer ([const uint8_t*] with its [size_t length], or a
      [std::vector<uint8_t>]) is a [list byte]. A read [data[i]] is
      [rd data i : option byte]; [None] is a read past the end of the buffer,
      which the C++ leaves undefined.
    - Globals are the fields of [Session]; the frames handed to
      [writeValue] are collected, oldest first, in [written]. *)

From Stdlib Require Import String.
From Stdlib Require Import ZArith List Lia Bool Permutation.
From coqutil Require Import Byte.
Import ListNotations.
Local Open Scope Z_scope.

(** ** Machine integers *)

Definition u8 (b : byte) : Z := byte.unsigned b.

Definition wrap16 (z : Z) : Z := z mod 2 ^ 16.
Definition wrap32 (z : Z) : Z := z mod 2 ^ 32.

(** [(int8_t)b]: the byte read as a two's complement value. *)
Definition int8_of (b : byte) : Z :=
  if u8 b <? 128 then u8 b else u8 b - 256.

(** ** Buffers *)

(** [data[i]]; [None] when [i] is past the end. *)
Definition rd (data : list byte) (i : Z) : option byte :=
  if i <? 0 then None else nth_error data (Z.to_nat i).

Definition size (data : list byte) : Z := Z.of_nat (length data).

(** A small error monad for the reads. *)
Definition bind {A B : Type} (m : option A) (k : A -> option B) : option B :=
  match m with
  | Some a => k a
  | None => None
  end.

Notation "x <- m ;; k" := (bind m (fun x => k))
  (at level 61, m at next level, right associativity).

(** ** The status record, [FridgeStatus_t] *)

Record FridgeStatus_t : Type := mkStatus {
  locked : bool;
  poweredOn : bool;
  runMode : Z;       (* uint8_t, 0=MAX, 1=ECO *)
  batSaver : Z;      (* uint8_t, 0=Low, 1=Mid, 2=High *)
  leftTarget : Z;    (* int8_t *)
  tempMax : Z;       (* int8_t *)
  tempMin : Z;       (* int8_t *)
  leftRetDiff : Z;   (* uint8_t *)
  startDelay : Z;    (* uint8_t *)
  unit : Z;          (* uint8_t, 0 = Celsius, 1 = Fahrenheit *)
  leftTCHot : Z;     (* int8_t *)
  leftTCMid : Z;     (* int8_t *)
  leftTCCold : Z;    (* int8_t *)
  leftTCHalt : Z;    (* int8_t *)
  leftCurrent : Z;   (* int8_t *)
  batPercent : Z;    (* uint8_t *)
  batVolInt : Z;     (* uint8_t *)
  batVolDec : Z      (* uint8_t *)
}.

(** ** [calculateChecksum]

    [[
      uint32_t sum = 0;
      for (size_t i = 0; i < len; i++) sum += buf[i];
      return (uint16_t)(sum & 0xFFFF);
    ]]
    [checksum_loop buf i n sum] runs the [n] remaining iterations from index
    [i] with the accumulator [sum]. *)
Fixpoint checksum_loop (buf : list byte) (i : Z) (n : nat) (sum : Z) : option Z :=
  match n with
  | O => Some sum
  | S n' =>
      b <- rd buf i ;;
      checksum_loop buf (i + 1) n' (wrap32 (sum + u8 b))
  end.

Definition calculateChecksum (buf : list byte) (len : Z) : option Z :=
  sum <- checksum_loop buf 0 (Z.to_nat len) 0 ;;
  Some (wrap16 (Z.land sum 0xFFFF)).

(** The checksum of a whole byte sequence. *)
Definition checksum (b : list byte) : option Z := calculateChecksum b (size b).

(** The arithmetic sum of the byte values, without any wrap-around. *)
Definition byte_sum (b : list byte) : Z :=
  fold_right (fun x acc => u8 x + acc) 0 b.

(** ** [decodeFridgeQuerySingleZone]

    The record [status] is passed by reference: the function returns its
    boolean result together with the record as it leaves it. *)
Definition decodeFridgeQuerySingleZone (data : list byte) (status : FridgeStatus_t)
  : option (bool * FridgeStatus_t) :=
  let length := size data in
  if length <? 24 then Some (false, status) else
  d0 <- rd data 0 ;;
  if negb (u8 d0 =? 0xFE) then Some (false, status) else
  d1 <- rd data 1 ;;
  if negb (u8 d1 =? 0xFE) then Some (false, status) else
  declaredLen <- rd data 2 ;;
  cmd <- rd data 3 ;;
  if negb (u8 cmd =? 0x01) then Some (false, status) else
  if length <? 24 then Some (false, status) else
  let offsetSum := wrap16 (length - 2) in
  hi <- rd data offsetSum ;;
  lo <- rd data (offsetSum + 1) ;;
  let sumPacket := wrap16 (Z.lor (Z.shiftl (u8 hi) 8) (u8 lo)) in
  sumCalc <- calculateChecksum data offsetSum ;;
  if negb (sumCalc =? sumPacket) then Some (false, status) else
  let payload k := rd data (4 + k) in
  p0 <- payload 0 ;; p1 <- payload 1 ;; p2 <- payload 2 ;;
  p3 <- payload 3 ;; p4 <- payload 4 ;; p5 <- payload 5 ;;
  p6 <- payload 6 ;; p7 <- payload 7 ;; p8 <- payload 8 ;;
  p9 <- payload 9 ;; p10 <- payload 10 ;; p11 <- payload 11 ;;
  p12 <- payload 12 ;; p13 <- payload 13 ;; p14 <- payload 14 ;;
  p15 <- payload 15 ;; p16 <- payload 16 ;; p17 <- payload 17 ;;
  Some (true,
        {| locked := (u8 p0 =? 1);
           poweredOn := (u8 p1 =? 1);
           runMode := u8 p2;
           batSaver := u8 p3;
           leftTarget := int8_of p4;
           tempMax := int8_of p5;
           tempMin := int8_of p6;
           leftRetDiff := u8 p7;
           startDelay := u8 p8;
           unit := u8 p9;
           leftTCHot := int8_of p10;
           leftTCMid := int8_of p11;
           leftTCCold := int8_of p12;
           leftTCHalt := int8_of p13;
           leftCurrent := int8_of p14;
           batPercent := u8 p15;
           batVolInt := u8 p16;
           batVolDec := u8 p17 |}).

(** ** [buildQueryCommand] and [buildBindCommand]

    [packet] is the caller's vector; [clear] empties it and [push_back]
    appends one byte at the end. *)
Definition clear (packet : list byte) : list byte := [].
Definition push_back (packet : list byte) (b : byte) : list byte := packet ++ [b].

Definition buildQueryCommand (packet : list byte) : list byte :=
  let packet := clear packet in
  let packet := push_back packet Byte.xfe in
  let packet := push_back packet Byte.xfe in
  let packet := push_back packet Byte.x03 in
  let packet := push_back packet Byte.x01 in
  let packet := push_back packet Byte.x02 in
  let packet := push_back packet Byte.x00 in
  packet.

Definition buildBindCommand (packet : list byte) : list byte :=
  let packet := clear packet in
  let packet := push_back packet Byte.xfe in
  let packet := push_back packet Byte.xfe in
  let packet := push_back packet Byte.x03 in
  let packet := push_back packet Byte.x01 in
  let packet := push_back packet Byte.x02 in
  let packet := push_back packet Byte.x00 in
  let packet := push_back packet Byte.xff in
  packet.

(** ** The session: the globals of main.cpp *)

(** A resolved [BLERemoteCharacteristic*]; [None] is [nullptr]. *)
Definition handle : Type := Z.

Definition QUERY_INTERVAL_MS : Z := 60000.

Record Session : Type := mkSession {
  doConnect : bool;
  connected : bool;
  pRemoteCharacteristicWrite : option handle;
  pRemoteCharacteristicNotify : option handle;
  lastQueryMillis : Z;                      (* unsigned long *)
  g_lastNotificationData : list byte;
  g_newDataAvailable : bool;
  written : list (list byte)                (* frames given to writeValue *)
}.

Definition initial : Session :=
  {| doConnect := false; connected := false;
     pRemoteCharacteristicWrite := None; pRemoteCharacteristicNotify := None;
     lastQueryMillis := 0;
     g_lastNotificationData := []; g_newDataAvailable := false;
     written := [] |}.

Definition set_doConnect (v : bool) (s : Session) : Session :=
  mkSession v (connected s) (pRemoteCharacteristicWrite s)
    (pRemoteCharacteristicNotify s) (lastQueryMillis s)
    (g_lastNotificationData s) (g_newDataAvailable s) (written s).

Definition set_connected (v : bool) (s : Session) : Session :=
  mkSession (doConnect s) v (pRemoteCharacteristicWrite s)
    (pRemoteCharacteristicNotify s) (lastQueryMillis s)
    (g_lastNotificationData s) (g_newDataAvailable s) (written s).

Definition set_write (v : option handle) (s : Session) : Session :=
  mkSession (doConnect s) (connected s) v
    (pRemoteCharacteristicNotify s) (lastQueryMillis s)
    (g_lastNotificationData s) (g_newDataAvailable s) (written s).

Definition set_notify (v : option handle) (s : Session) : Session :=
  mkSession (doConnect s) (connected s) (pRemoteCharacteristicWrite s)
    v (lastQueryMillis s)
    (g_lastNotificationData s) (g_newDataAvailable s) (written s).

Definition set_lastQueryMillis (v : Z) (s : Session) : Session :=
  mkSession (doConnect s) (connected s) (pRemoteCharacteristicWrite s)
    (pRemoteCharacteristicNotify s) v
    (g_lastNotificationData s) (g_newDataAvailable s) (written s).

Definition set_data (v : list byte) (s : Session) : Session :=
  mkSession (doConnect s) (connected s) (pRemoteCharacteristicWrite s)
    (pRemoteCharacteristicNotify s) (lastQueryMillis s)
    v (g_newDataAvailable s) (written s).

Definition set_newData (v : bool) (s : Session) : Session :=
  mkSession (doConnect s) (connected s) (pRemoteCharacteristicWrite s)
    (pRemoteCharacteristicNotify s) (lastQueryMillis s)
    (g_lastNotificationData s) v (written s).

(** [pRemoteCharacteristicWrite->writeValue(cmd.data(), cmd.size(), false)] *)
Definition writeValue (frame : list byte) (s : Session) : Session :=
  mkSession (doConnect s) (connected s) (pRemoteCharacteristicWrite s)
    (pRemoteCharacteristicNotify s) (lastQueryMillis s)
    (g_lastNotificationData s) (g_newDataAvailable s) (written s ++ [frame]).

(** The phase of the session, read off the two flags. The source keeps one
    flag, [connected], from the BIND on: [Bound] stands for the whole time the
    link is up, before and after the first QUERY. *)
Inductive Phase : Type := Disconnected | Connecting | Bound.

Definition phase (s : Session) : Phase :=
  if connected s then Bound
  else if doConnect s then Connecting
  else Disconnected.

(** *** [notifyCallback] *)
Definition notifyCallback (pData : list byte) (s : Session) : Session :=
  let s := set_data (clear (g_lastNotificationData s)) s in
  let s := fold_left (fun s b => set_data (push_back (g_lastNotificationData s) b) s)
             pData s in
  set_newData true s.

(** *** [MyAdvertisedDeviceCallbacks::onResult]
    [isTarget]: the advertisement has a name and it is TARGET_DEVICE_NAME. *)
Definition onResult (isTarget : bool) (s : Session) : Session :=
  if isTarget then set_doConnect true s else s.

(** *** [MyClientCallback::onDisconnect] *)
Definition onDisconnect (s : Session) : Session := set_connected false s.

(** *** [connectToServer]
    What the transport answers during one call. *)
Inductive ConnectOutcome : Type :=
| ConnectFailed                                   (* connect() returned false *)
| ServiceNotFound                                 (* getService gave nullptr *)
| WriteNotFound                                   (* 0x1235 gave nullptr *)
| NotifyNotFound (w : handle)                     (* 0x1236 gave nullptr *)
| EndpointsResolved (w n : handle) (canNotify : bool).

(** [millis] is the value [millis()] returns on the success path. *)
Definition connectToServer (o : ConnectOutcome) (millis : Z) (s : Session)
  : bool * Session :=
  match o with
  | ConnectFailed => (false, s)
  | ServiceNotFound => (false, s)
  | WriteNotFound => (false, set_write None s)
  | NotifyNotFound w => (false, set_notify None (set_write (Some w) s))
  | EndpointsResolved w n _ =>
      let s := set_write (Some w) s in
      let s := set_notify (Some n) s in
      let s := set_connected true s in
      let s := writeValue (buildBindCommand []) s in
      let s := set_lastQueryMillis (wrap32 (millis - QUERY_INTERVAL_MS)) s in
      (true, s)
  end.

(** *** [loop], step 3: the periodic query. [now] is what [millis()] returns. *)
Definition queryStep (now : Z) (s : Session) : Session :=
  match connected s, pRemoteCharacteristicWrite s with
  | true, Some _ =>
      if QUERY_INTERVAL_MS <=? wrap32 (now - lastQueryMillis s) then
        let s := set_lastQueryMillis now s in
        writeValue (buildQueryCommand []) s
      else s
  | _, _ => s
  end.

(** *** [loop], step 4, first half: take the notification if the flag is up. *)
Definition drainPending (s : Session) : option (list byte) * Session :=
  if g_newDataAvailable s
  then (Some (g_lastNotificationData s), set_newData false s)
  else (None, s).

(** What one pass of [loop] reads from outside. *)
Record TickInput : Type := mkTick {
  scanFound : bool;              (* the 5 s scan reported the target *)
  outcome : ConnectOutcome;      (* the transport's answer, if a connect is tried *)
  connectMillis : Z;             (* millis() inside connectToServer *)
  nowMillis : Z;                 (* millis() in step 3 *)
  st : FridgeStatus_t            (* the uninitialised local record *)
}.

(** *** [loop], step 1: scan while neither connected nor about to connect.
    The scan callback [onResult] runs inside [pBLEScan->start(5)]. *)
Definition scanStep (found : bool) (s : Session) : Session :=
  if negb (connected s) && negb (doConnect s) then onResult found s else s.

(** *** [loop], step 2: connect when the scan asked for it. *)
Definition connectStep (o : ConnectOutcome) (millis : Z) (s : Session) : Session :=
  if doConnect s
  then set_doConnect false (snd (connectToServer o millis s))
  else s.

(** *** [loop]. Returns the session and, when a notification was pending,
    the result of decoding it. *)
Definition loop (i : TickInput) (s : Session)
  : Session * option (option (bool * FridgeStatus_t)) :=
  let s := scanStep (scanFound i) s in
  let s := connectStep (outcome i) (connectMillis i) s in
  let s := queryStep (nowMillis i) s in
  match drainPending s with
  | (Some bytes, s) => (s, Some (decodeFridgeQuerySingleZone bytes (st i)))
  | (None, s) => (s, None)
  end.

(** The events of a session, one at a time. *)
Inductive Event : Type :=
| Tick (i : TickInput)
| Notification (pData : list byte)
| Disconnect.

Definition step (s : Session) (e : Event) : Session :=
  match e with
  | Tick i => fst (loop i s)
  | Notification pData => notifyCallback pData s
  | Disconnect => onDisconnect s
  end.

Definition run (s : Session) (es : list Event) : Session := fold_left step es s.

Definition reachable (s : Session) : Prop := exists es, s = run initial es.

(** * Vocabulary of the statements, and sample inputs *)

(** [data[i]] as a total function, for the statements: [x00] past the end. *)
Definition byte_at (data : list byte) (i : Z) : byte :=
  nth (Z.to_nat i) data Byte.x00.

(** The offset the decoder takes the two checksum bytes from:
    [uint16_t offsetSum = length - 2]. *)
Definition offsetSum_of (data : list byte) : Z := wrap16 (size data - 2).

(** The four checks of the decoder, in the order of the source. *)
Definition accepts (data : list byte) : bool :=
  (24 <=? size data)
  && (u8 (byte_at data 0) =? 0xFE)
  && (u8 (byte_at data 1) =? 0xFE)
  && (u8 (byte_at data 3) =? 0x01)
  && (byte_sum (firstn (Z.to_nat (offsetSum_of data)) data) mod 2 ^ 16
      =? u8 (byte_at data (offsetSum_of data)) * 256
         + u8 (byte_at data (offsetSum_of data + 1))).

(** The record the decoder fills in from [data[4..21]]. *)
Definition report_of (data : list byte) : FridgeStatus_t :=
  {| locked := (u8 (byte_at data 4) =? 1);
     poweredOn := (u8 (byte_at data 5) =? 1);
     runMode := u8 (byte_at data 6);
     batSaver := u8 (byte_at data 7);
     leftTarget := int8_of (byte_at data 8);
     tempMax := int8_of (byte_at data 9);
     tempMin := int8_of (byte_at data 10);
     leftRetDiff := u8 (byte_at data 11);
     startDelay := u8 (byte_at data 12);
     unit := u8 (byte_at data 13);
     leftTCHot := int8_of (byte_at data 14);
     leftTCMid := int8_of (byte_at data 15);
     leftTCCold := int8_of (byte_at data 16);
     leftTCHalt := int8_of (byte_at data 17);
     leftCurrent := int8_of (byte_at data 18);
     batPercent := u8 (byte_at data 19);
     batVolInt := u8 (byte_at data 20);
     batVolDec := u8 (byte_at data 21) |}.

(** The two bytes of a 16-bit value, most significant first. *)
Definition be16 (c : Z) : list byte := [byte.of_Z (c / 256); byte.of_Z (c mod 256)].

(** [FE FE 14 01], the head of a single-zone query response. *)
Definition response_head : list byte := [Byte.xfe; Byte.xfe; Byte.x14; Byte.x01].

(** A payload as a fridge would send it: unlocked, on, ECO, saver High,
    target -4, max 20, min -20, ..., current -3, 87 %, 12.8 V. *)
Definition sample_payload : list byte :=
  [Byte.x00; Byte.x01; Byte.x01; Byte.x02; Byte.xfc; Byte.x14; Byte.xec;
   Byte.x02; Byte.x00; Byte.x00; Byte.x00; Byte.x00; Byte.x00; Byte.x00;
   Byte.xfd; Byte.x57; Byte.x0c; Byte.x08].

Definition blank_status : FridgeStatus_t :=
  mkStatus false false 0 0 0 0 0 0 0 0 0 0 0 0 0 0 0 0.

(** The four checks as the frame format describes them: length, sync,
    command, and the sum of all bytes before the last two against the last
    two. *)
Definition well_formed (data : list byte) : bool :=
  (24 <=? size data)
  && (u8 (byte_at data 0) =? 0xFE)
  && (u8 (byte_at data 1) =? 0xFE)
  && (u8 (byte_at data 3) =? 0x01)
  && (byte_sum (firstn (Z.to_nat (size data - 2)) data) mod 2 ^ 16
      =? u8 (byte_at data (size data - 2)) * 256
         + u8 (byte_at data (size data - 1))).

(** A frame of 65560 bytes: the well-formed 24-byte response of
    [decode_sample] followed by 65536 zero bytes. Its last two bytes are
    00 00, the sum of the 65558 bytes before them is 1531. *)
Definition long_frame : list byte :=
  response_head ++ sample_payload ++ [Byte.x05; Byte.x7b]
  ++ repeat Byte.x00 (Z.to_nat 65536).

(** [a] and [b] have the same length and the same bytes, byte 2 and the two
    trailing checksum bytes apart. *)
Definition same_but_declared_length (a b : list byte) : Prop :=
  size a = size b
  /\ forall i, 0 <= i < size a - 2 -> i <> 2 -> byte_at a i = byte_at b i.

(** The last two bytes are the sum of all bytes before them, high byte first. *)
Definition trailer_ok (data : list byte) : bool :=
  byte_sum (firstn (Z.to_nat (size data - 2)) data) mod 2 ^ 16
  =? u8 (byte_at data (size data - 2)) * 256 + u8 (byte_at data (size data - 1)).

(** Equality of byte sequences, as a test. *)
Fixpoint bytes_eqb (a b : list byte) : bool :=
  match a, b with
  | [], [] => true
  | x :: a', y :: b' => (u8 x =? u8 y) && bytes_eqb a' b'
  | _, _ => false
  end.

(** Two frames of 65560 bytes: the response of [decode_sample], 65534 zero
    bytes, and the sum of those 65558 bytes; the second with byte 2 changed
    from 14 to 15 and its trailer one higher. *)
Definition long_a : list byte :=
  [Byte.xfe; Byte.xfe; Byte.x14; Byte.x01] ++ sample_payload ++ [Byte.x05; Byte.x7b]
  ++ repeat Byte.x00 (Z.to_nat 65534) ++ [Byte.x05; Byte.xfb].

Definition long_b : list byte :=
  [Byte.xfe; Byte.xfe; Byte.x15; Byte.x01] ++ sample_payload ++ [Byte.x05; Byte.x7b]
  ++ repeat Byte.x00 (Z.to_nat 65534) ++ [Byte.x05; Byte.xfc].

(** The slot: the buffer and its flag. *)
Definition slot (s : Session) : list byte * bool :=
  (g_lastNotificationData s, g_newDataAvailable s).

(** Between two events no connect is pending, and while [connected] is up
    both characteristics are resolved. *)
Definition session_inv (s : Session) : Prop :=
  doConnect s = false
  /\ (connected s = true ->
      pRemoteCharacteristicWrite s <> None /\ pRemoteCharacteristicNotify s <> None).

Definition bind_bytes : list byte :=
  [Byte.xfe; Byte.xfe; Byte.x03; Byte.x01; Byte.x02; Byte.x00; Byte.xff].

Definition query_bytes : list byte :=
  [Byte.xfe; Byte.xfe; Byte.x03; Byte.x01; Byte.x02; Byte.x00].

(** A first pass of [loop]: the scan finds the fridge, the connect resolves
    the characteristics 1 and 2 at 1200 ms, the query step runs at 1500 ms. *)
Definition first_tick : TickInput :=
  mkTick true (EndpointsResolved 1 2 true) 1200 1500 blank_status.

(** A later pass, one interval after the first query. *)
Definition later_tick : TickInput :=
  mkTick false ConnectFailed 0 61500 blank_status.

(** * The display part of [loop]

    The labels [loop] prints for a decoded record: ["YES"]/["NO"] and
    ["ON"]/["OFF"] for the two flags, [runModeStr], [saverStr] and
    [tempUnit]. The three [if]s of [saverStr] are separate statements, as in
    the source. *)
Definition lockedStr (status : FridgeStatus_t) : string :=
  if locked status then "YES"%string else "NO"%string.

Definition poweredOnStr (status : FridgeStatus_t) : string :=
  if poweredOn status then "ON"%string else "OFF"%string.

Definition runModeStr (status : FridgeStatus_t) : string :=
  let runModeStr := "UNKNOWN"%string in
  if runMode status =? 0 then "MAX"%string
  else if runMode status =? 1 then "ECO"%string
  else runModeStr.

Definition saverStr (status : FridgeStatus_t) : string :=
  let saverStr := "Unknown"%string in
  let saverStr := if batSaver status =? 0 then "Low"%string else saverStr in
  let saverStr := if batSaver status =? 1 then "Mid"%string else saverStr in
  let saverStr := if batSaver status =? 2 then "High"%string else saverStr in
  saverStr.

Definition tempUnit (status : FridgeStatus_t) : string :=
  if unit status =? 0 then "°C"%string else "°F"%string.

(** * Further vocabulary *)

(** [data] with the byte at index [i] replaced by [x]; [data] itself when
    [i] is past the end. *)
Fixpoint set_byte (data : list byte) (i : nat) (x : byte) : list byte :=
  match data, i with
  | [], _ => []
  | _ :: tl, O => x :: tl
  | y :: tl, S i' => y :: set_byte tl i' x
  end.

(** One of the two frames the driver builds. *)
Definition is_command (frame : list byte) : Prop :=
  frame = bind_bytes \/ frame = query_bytes.

(** What one pass of [loop] may add to the frames written. *)
Definition tick_output (extra : list (list byte)) : Prop :=
  extra = [] \/ extra = [query_bytes]
  \/ extra = [bind_bytes] \/ extra = [bind_bytes; query_bytes].

(** A failed [connectToServer]. *)
Definition failed (o : ConnectOutcome) : bool :=
  match o with
  | EndpointsResolved _ _ _ => false
  | _ => true
  end.

(** The frames written so far: commands only, a BIND first, and at least
    one once connected. *)
Definition trace_inv (s : Session) : Prop :=
  Forall is_command (written s)
  /\ (forall f tl, written s = f :: tl -> f = bind_bytes)
  /\ (connected s = true -> written s <> []).

(** [connectToServer] gets as far as looking up the characteristics, the
    only place where the two handles are assigned. *)
Definition reaches_lookup (o : ConnectOutcome) : bool :=
  match o with
  | ConnectFailed | ServiceNotFound => false
  | WriteNotFound | NotifyNotFound _ | EndpointsResolved _ _ _ => true
  end.

(** An event during which no characteristic is looked up: a notification, a
    disconnect, or a pass of [loop] whose scan finds nothing or whose connect
    fails before the lookup. *)
Definition quiet (e : Event) : Prop :=
  match e with
  | Tick i => scanFound i && reaches_lookup (outcome i) = false
  | Notification _ => True
  | Disconnect => True
  end.

(** * Properties *)

(** ** Machine arithmetic *)

Lemma u8_range (b : byte) : 0 <= u8 b < 256.
Proof. unfold u8. pose proof (byte.unsigned_range b) as H. change (2 ^ 8) with 256 in H. exact H. Qed.

Lemma land_FFFF (z : Z) : Z.land z 0xFFFF = z mod 2 ^ 16.
Proof. change 0xFFFF with (Z.ones 16). apply Z.land_ones. lia. Qed.

Lemma wrap16_wrap32 (z : Z) : wrap16 (wrap32 z) = wrap16 z.
Proof.
  unfold wrap16, wrap32.
  apply Z.mod_mod_divide.
  exists (2 ^ 16). reflexivity.
Qed.

Lemma wrap16_idem (z : Z) : wrap16 (wrap16 z) = wrap16 z.
Proof. unfold wrap16. apply Z.mod_mod. lia. Qed.

Lemma wrap16_small (z : Z) : 0 <= z < 65536 -> wrap16 z = z.
Proof. intros H. unfold wrap16. apply Z.mod_small. change (2 ^ 16) with 65536. lia. Qed.



Lemma wrap32_add_l (a b : Z) : wrap32 (wrap32 a + b) = wrap32 (a + b).
Proof. unfold wrap32. apply Zplus_mod_idemp_l. Qed.

(** [(hi << 8) | lo] is [256 * hi + lo] on two bytes. *)
Lemma shift_or_bytes (hi lo : byte) :
  Z.lor (Z.shiftl (u8 hi) 8) (u8 lo) = u8 hi * 256 + u8 lo.
Proof.
  pose proof (u8_range hi) as Hh. pose proof (u8_range lo) as Hl.
  assert (Hd : Z.land (Z.shiftl (u8 hi) 8) (u8 lo) = 0).
  { apply Z.bits_inj'. intros n Hn.
    rewrite Z.land_spec, Z.bits_0.
    destruct (Z.ltb_spec n 8) as [Hlt | Hge].
    - rewrite Z.shiftl_spec_low by assumption. reflexivity.
    - replace (Z.testbit (u8 lo) n) with false; [apply andb_false_r|].
      symmetry. apply Z.testbit_false; [lia|].
      rewrite Z.div_small; [reflexivity|].
      split; [lia|].
      apply Z.lt_le_trans with (2 ^ 8); [change (2 ^ 8) with 256; lia|].
      apply Z.pow_le_mono_r; lia. }
  rewrite <- Z.lxor_lor by exact Hd.
  rewrite <- Z.add_nocarry_lxor by exact Hd.
  rewrite Z.shiftl_mul_pow2 by lia. reflexivity.
Qed.

Lemma sumPacket_value (hi lo : byte) :
  wrap16 (Z.lor (Z.shiftl (u8 hi) 8) (u8 lo)) = u8 hi * 256 + u8 lo.
Proof.
  rewrite shift_or_bytes. apply wrap16_small.
  pose proof (u8_range hi). pose proof (u8_range lo). lia.
Qed.

(** ** Reads *)

Lemma rd_in (data : list byte) (i : Z) :
  0 <= i < size data -> rd data i = Some (byte_at data i).
Proof.
  intros [H0 H1]. unfold rd, byte_at, size in *.
  destruct (Z.ltb_spec i 0) as [Hn | _]; [lia|].
  apply nth_error_nth'. lia.
Qed.

Lemma rd_out (data : list byte) (i : Z) :
  size data <= i -> rd data i = None.
Proof.
  intros H. unfold rd, size in *.
  destruct (Z.ltb_spec i 0) as [Hn | _]; [reflexivity|].
  apply nth_error_None. lia.
Qed.

Lemma rd_app_r (pre rest : list byte) :
  rd (pre ++ rest) (size pre) = nth_error rest 0.
Proof.
  unfold rd, size. destruct (Z.ltb_spec (Z.of_nat (length pre)) 0) as [Hn | _]; [lia|].
  rewrite Nat2Z.id, nth_error_app2 by lia.
  rewrite Nat.sub_diag. reflexivity.
Qed.

(** ** The checksum loop *)

Lemma byte_sum_app (a b : list byte) : byte_sum (a ++ b) = byte_sum a + byte_sum b.
Proof.
  induction a as [| x a IH]; simpl; [reflexivity|].
  rewrite IH. lia.
Qed.

Lemma byte_sum_nonneg (b : list byte) : 0 <= byte_sum b.
Proof.
  induction b as [| x b IH]; simpl; [lia|].
  pose proof (u8_range x). lia.
Qed.

Lemma byte_sum_perm (a b : list byte) : Permutation a b -> byte_sum a = byte_sum b.
Proof.
  induction 1 as [| x l l' _ IH | x y l | l l' l'' _ IH1 _ IH2]; simpl.
  - reflexivity.
  - rewrite IH. reflexivity.
  - lia.
  - congruence.
Qed.

(** The loop started at index [|pre|] over [pre ++ rest]: [n] in-range
    iterations add the next [n] bytes to the accumulator, modulo 2^32. *)
Lemma checksum_loop_in (n : nat) :
  forall (pre rest : list byte) (sum : Z),
    (n <= length rest)%nat ->
    checksum_loop (pre ++ rest) (size pre) n sum
    = Some (if Nat.eqb n 0 then sum else wrap32 (sum + byte_sum (firstn n rest))).
Proof.
  induction n as [| n IH]; intros pre rest sum Hn; [reflexivity|].
  destruct rest as [| x rest]; [simpl in Hn; lia|].
  cbn [checksum_loop]. rewrite rd_app_r. cbn [nth_error bind].
  replace (pre ++ x :: rest) with ((pre ++ [x]) ++ rest)
    by (rewrite <- app_assoc; reflexivity).
  replace (size pre + 1) with (size (pre ++ [x]))
    by (unfold size; rewrite length_app; simpl; lia).
  rewrite IH by (simpl in Hn; lia).
  cbn [Nat.eqb firstn byte_sum fold_right].
  destruct n as [| n]; cbn [Nat.eqb].
  - cbn [firstn fold_right]. rewrite Z.add_0_r. reflexivity.
  - fold (byte_sum (firstn (S n) rest)).
    rewrite wrap32_add_l. f_equal. f_equal. lia.
Qed.

(** A read past the end stops the loop. *)
Lemma checksum_loop_out (n : nat) :
  forall (pre rest : list byte) (sum : Z),
    (length rest < n)%nat ->
    checksum_loop (pre ++ rest) (size pre) n sum = None.
Proof.
  induction n as [| n IH]; intros pre rest sum Hn; [lia|].
  cbn [checksum_loop]. rewrite rd_app_r.
  destruct rest as [| x rest]; [reflexivity|].
  cbn [nth_error bind].
  replace (pre ++ x :: rest) with ((pre ++ [x]) ++ rest)
    by (rewrite <- app_assoc; reflexivity).
  replace (size pre + 1) with (size (pre ++ [x]))
    by (unfold size; rewrite length_app; simpl; lia).
  apply IH. simpl in Hn. lia.
Qed.

(** [calculateChecksum buf len], for [len] within the buffer: the sum of the
    first [len] bytes modulo 2^16. *)
Lemma calculateChecksum_in (buf : list byte) (len : Z) :
  0 <= len <= size buf ->
  calculateChecksum buf len = Some (byte_sum (firstn (Z.to_nat len) buf) mod 2 ^ 16).
Proof.
  intros [H0 H1]. unfold calculateChecksum.
  change buf with ([] ++ buf) at 1. change 0 with (size []) at 1.
  rewrite checksum_loop_in by (unfold size in H1; lia).
  cbn [bind]. f_equal. rewrite land_FFFF. fold (wrap16 (if (Z.to_nat len =? 0)%nat
     then 0 else wrap32 (0 + byte_sum (firstn (Z.to_nat len) buf)))).
  rewrite wrap16_idem.
  destruct (Nat.eqb_spec (Z.to_nat len) 0) as [E | E].
  - rewrite E. reflexivity.
  - rewrite wrap16_wrap32. reflexivity.
Qed.

(** ** The decoder as a closed formula *)

Lemma offsetSum_bounds (data : list byte) :
  24 <= size data -> 0 <= offsetSum_of data <= size data - 2.
Proof.
  intros H. unfold offsetSum_of, wrap16. split.
  - apply Z.mod_pos_bound. lia.
  - apply Z.mod_le; lia.
Qed.

Lemma offsetSum_small (data : list byte) :
  24 <= size data < 65538 -> offsetSum_of data = size data - 2.
Proof. intros H. unfold offsetSum_of. apply wrap16_small. lia. Qed.

(** The decoder never reads past the end of its buffer, and its result is
    given by [accepts] and [report_of]. *)
Lemma decode_eq (data : list byte) (status : FridgeStatus_t) :
  decodeFridgeQuerySingleZone data status
  = Some (if accepts data then (true, report_of data) else (false, status)).
Proof.
  unfold decodeFridgeQuerySingleZone, accepts. cbv zeta.
  destruct (Z.ltb_spec (size data) 24) as [Hs | Hs].
  - replace (24 <=? size data) with false by (symmetry; apply Z.leb_gt; lia).
    reflexivity.
  - replace (24 <=? size data) with true by (symmetry; apply Z.leb_le; lia).
    pose proof (offsetSum_bounds data Hs) as Hk.
    fold (offsetSum_of data).
    rewrite (rd_in data 0), (rd_in data 1), (rd_in data 2), (rd_in data 3) by lia.
    rewrite (rd_in data (offsetSum_of data)), (rd_in data (offsetSum_of data + 1)) by lia.
    rewrite (calculateChecksum_in data (offsetSum_of data)) by lia.
    change (4 + 0) with 4; change (4 + 1) with 5; change (4 + 2) with 6;
    change (4 + 3) with 7; change (4 + 4) with 8; change (4 + 5) with 9;
    change (4 + 6) with 10; change (4 + 7) with 11; change (4 + 8) with 12;
    change (4 + 9) with 13; change (4 + 10) with 14; change (4 + 11) with 15;
    change (4 + 12) with 16; change (4 + 13) with 17; change (4 + 14) with 18;
    change (4 + 15) with 19; change (4 + 16) with 20; change (4 + 17) with 21.
    rewrite (rd_in data 4), (rd_in data 5), (rd_in data 6), (rd_in data 7),
      (rd_in data 8), (rd_in data 9), (rd_in data 10), (rd_in data 11),
      (rd_in data 12), (rd_in data 13), (rd_in data 14), (rd_in data 15),
      (rd_in data 16), (rd_in data 17), (rd_in data 18), (rd_in data 19),
      (rd_in data 20), (rd_in data 21) by lia.
    cbn [bind andb]. rewrite sumPacket_value.
    destruct (u8 (byte_at data 0) =? 254); cbn [negb andb]; [|reflexivity].
    destruct (u8 (byte_at data 1) =? 254); cbn [negb andb]; [|reflexivity].
    destruct (u8 (byte_at data 3) =? 1); cbn [negb andb]; [|reflexivity].
    destruct (_ =? _); reflexivity.
Qed.

(** ** Checksum *)

(** The checksum of a whole sequence is its byte sum modulo 2^16. *)
Lemma checksum_byte_sum (b : list byte) : checksum b = Some (byte_sum b mod 2 ^ 16).
Proof.
  unfold checksum.
  rewrite calculateChecksum_in by (pose proof (Zle_0_nat (length b)); unfold size; lia).
  unfold size. rewrite Nat2Z.id, firstn_all. reflexivity.
Qed.

(** C6. For every byte sequence [b], of any length, [checksum b] returns, and
    what it returns is the arithmetic sum of the byte values of [b] modulo
    2^16, although the accumulator of the loop wraps at 2^32; the checksum of
    the empty sequence is 0. *)
Theorem checksum_is_sum_mod_2_16 :
  (forall b : list byte, checksum b = Some (byte_sum b mod 2 ^ 16))
  /\ checksum [] = Some 0.
Proof. split; [exact checksum_byte_sum | reflexivity]. Qed.

(** C10. The checksum of a concatenation is the sum of the two checksums
    modulo 2^16, and two byte sequences that are permutations of one another
    have the same checksum; a change of the value of one byte, the others
    kept, changes it. *)
Theorem checksum_additive_and_order_blind :
  (forall a b : list byte,
      exists ca cb,
        checksum a = Some ca /\ checksum b = Some cb
        /\ checksum (a ++ b) = Some ((ca + cb) mod 2 ^ 16))
  /\ (forall a b : list byte, Permutation a b -> checksum a = checksum b)
  /\ (forall (a b : list byte) (x y : byte),
         x <> y -> checksum (a ++ x :: b) <> checksum (a ++ y :: b)).
Proof.
  pose proof checksum_byte_sum as Hsum. split; [|split].
  - intros a b. exists (byte_sum a mod 2 ^ 16), (byte_sum b mod 2 ^ 16).
    rewrite !Hsum, byte_sum_app. repeat split.
    f_equal. apply Zplus_mod.
  - intros a b Hp. rewrite !Hsum. f_equal. f_equal. apply byte_sum_perm, Hp.
  - intros a b x y Hxy. rewrite !Hsum, !byte_sum_app. cbn [byte_sum fold_right].
    fold (byte_sum b). intros H. injection H as H. apply Hxy.
    apply byte.unsigned_inj. fold (u8 x). fold (u8 y).
    pose proof (u8_range x). pose proof (u8_range y).
    change (2 ^ 16) with 65536 in H.
    apply Z.cong_iff_ex in H. destruct H as [k Hk]. lia.
Qed.

Lemma checksum_additive_and_order_blind_witness :
  Permutation [Byte.x01; Byte.xfe; Byte.x14] [Byte.x14; Byte.x01; Byte.xfe]
  /\ checksum [Byte.x01; Byte.xfe; Byte.x14] = checksum [Byte.x14; Byte.x01; Byte.xfe]
  /\ Byte.x14 <> Byte.x15
  /\ checksum ([Byte.xfe; Byte.xfe] ++ Byte.x14 :: [Byte.x01])
     <> checksum ([Byte.xfe; Byte.xfe] ++ Byte.x15 :: [Byte.x01]).
Proof.
  assert (Hp : Permutation [Byte.x01; Byte.xfe; Byte.x14] [Byte.x14; Byte.x01; Byte.xfe]).
  { apply Permutation_sym. apply (Permutation_cons_app [Byte.x01; Byte.xfe] [] Byte.x14).
    apply Permutation_refl. }
  assert (Hne : Byte.x14 <> Byte.x15) by discriminate.
  split; [exact Hp|].
  split; [exact (proj1 (proj2 checksum_additive_and_order_blind) _ _ Hp)|].
  split; [exact Hne|].
  exact (proj2 (proj2 checksum_additive_and_order_blind) _ _ _ _ Hne).
Defined.

(** ** Command builders *)

(** C5. Whatever the vector held before, [buildBindCommand] leaves exactly
    FE FE 03 01 02 00 FF in it and [buildQueryCommand] exactly
    FE FE 03 01 02 00: seven and six bytes, no checksum after them. *)
Theorem builders_replace_with_literals (packet : list byte) :
  buildBindCommand packet
  = [Byte.xfe; Byte.xfe; Byte.x03; Byte.x01; Byte.x02; Byte.x00; Byte.xff]
  /\ buildQueryCommand packet
     = [Byte.xfe; Byte.xfe; Byte.x03; Byte.x01; Byte.x02; Byte.x00]
  /\ length (buildBindCommand packet) = 7%nat
  /\ length (buildQueryCommand packet) = 6%nat.
Proof. repeat split. Qed.

(** ** Decoding a well-formed response *)

Lemma be16_value (c : Z) :
  0 <= c < 65536 ->
  u8 (byte.of_Z (c / 256)) * 256 + u8 (byte.of_Z (c mod 256)) = c.
Proof.
  intros H. unfold u8. rewrite !byte.unsigned_of_Z. unfold byte.wrap.
  change (2 ^ 8) with 256.
  rewrite (Z.mod_small (c / 256)) by (split; [apply Z.div_pos; lia | apply Z.div_lt_upper_bound; lia]).
  rewrite Z.mod_mod by lia.
  pose proof (Z.div_mod c 256). lia.
Qed.

(** C1. For every 18-byte payload [p], the 24-byte frame FE FE 14 01, [p],
    then the checksum of those 22 bytes, high byte first, decodes with result
    [true], whatever the caller's record held, and the record then holds
    [p]: [locked] and [poweredOn] are the tests [p[0] == 1] and [p[1] == 1],
    the unsigned fields are the byte values, and the eight temperature fields
    are the bytes read as two's complement. *)
Theorem decode_valid_frame (p : list byte) (status : FridgeStatus_t) :
  length p = 18%nat ->
  exists c r,
    checksum (response_head ++ p) = Some c
    /\ length (response_head ++ p ++ be16 c) = 24%nat
    /\ decodeFridgeQuerySingleZone (response_head ++ p ++ be16 c) status = Some (true, r)
    /\ locked r = (u8 (nth 0 p Byte.x00) =? 1)
    /\ poweredOn r = (u8 (nth 1 p Byte.x00) =? 1)
    /\ runMode r = u8 (nth 2 p Byte.x00)
    /\ batSaver r = u8 (nth 3 p Byte.x00)
    /\ leftTarget r = int8_of (nth 4 p Byte.x00)
    /\ tempMax r = int8_of (nth 5 p Byte.x00)
    /\ tempMin r = int8_of (nth 6 p Byte.x00)
    /\ leftRetDiff r = u8 (nth 7 p Byte.x00)
    /\ startDelay r = u8 (nth 8 p Byte.x00)
    /\ unit r = u8 (nth 9 p Byte.x00)
    /\ leftTCHot r = int8_of (nth 10 p Byte.x00)
    /\ leftTCMid r = int8_of (nth 11 p Byte.x00)
    /\ leftTCCold r = int8_of (nth 12 p Byte.x00)
    /\ leftTCHalt r = int8_of (nth 13 p Byte.x00)
    /\ leftCurrent r = int8_of (nth 14 p Byte.x00)
    /\ batPercent r = u8 (nth 15 p Byte.x00)
    /\ batVolInt r = u8 (nth 16 p Byte.x00)
    /\ batVolDec r = u8 (nth 17 p Byte.x00)
    /\ (forall b, In b [leftTarget r; tempMax r; tempMin r; leftTCHot r;
                        leftTCMid r; leftTCCold r; leftTCHalt r; leftCurrent r] ->
                  -128 <= b <= 127).
Proof.
  intros Hp.
  do 18 (destruct p as [| ? p]; [discriminate Hp|]).
  destruct p; [clear Hp | discriminate Hp].
  pose proof checksum_byte_sum as Hsum.
  set (body := response_head ++ _).
  exists (byte_sum body mod 2 ^ 16).
  set (c := byte_sum body mod 2 ^ 16).
  assert (Hc : 0 <= c < 65536) by (apply Z.mod_pos_bound; lia).
  change (response_head ++ _ ++ be16 c) with (body ++ be16 c).
  exists (report_of (body ++ be16 c)).
  split; [apply Hsum|]. split; [reflexivity|].
  split.
  - rewrite decode_eq.
    replace (accepts (body ++ be16 c)) with true; [reflexivity|].
    symmetry. unfold accepts.
    change (offsetSum_of (body ++ be16 c)) with 22.
    change (firstn (Z.to_nat 22) (body ++ be16 c)) with body.
    change (byte_at (body ++ be16 c) 22) with (byte.of_Z (c / 256)).
    change (byte_at (body ++ be16 c) (22 + 1)) with (byte.of_Z (c mod 256)).
    rewrite be16_value by exact Hc.
    fold c. rewrite (Z.eqb_refl c). reflexivity.
  - repeat (split; [reflexivity|]).
    intros x Hx. cbn [In] in Hx.
    assert (Hi : forall y : byte, -128 <= int8_of y <= 127).
    { intros y. unfold int8_of. pose proof (u8_range y).
      destruct (Z.ltb_spec (u8 y) 128); lia. }
    repeat (destruct Hx as [Hx | Hx]; [subst x; apply Hi|]).
    contradiction.
Qed.

Example decode_sample :
  decodeFridgeQuerySingleZone
    (response_head ++ sample_payload ++ [Byte.x05; Byte.x7b]) blank_status
  = Some (true, mkStatus false true 1 2 (-4) 20 (-20) 2 0 0 0 0 0 0 (-3) 87 12 8).
Proof. vm_compute. reflexivity. Qed.

Lemma decode_valid_frame_witness :
  length sample_payload = 18%nat
  /\ exists c r,
       decodeFridgeQuerySingleZone (response_head ++ sample_payload ++ be16 c) blank_status
       = Some (true, r)
       /\ leftTarget r = -4 /\ batVolInt r = 12.
Proof.
  split; [reflexivity|].
  destruct (decode_valid_frame sample_payload blank_status eq_refl)
    as (c & r & _ & _ & Hd & H).
  exists c, r. split; [exact Hd|].
  split; [apply H | apply H].
Defined.

(** ** The checks of the decoder *)

(** The decoder returns, for every input and every record. *)
Lemma decode_total (data : list byte) (status : FridgeStatus_t) :
  exists ok r, decodeFridgeQuerySingleZone data status = Some (ok, r).
Proof.
  rewrite decode_eq. destruct (accepts data); eexists; eexists; reflexivity.
Qed.

(** Below 65538 bytes [offsetSum] is [length - 2] and the decoder accepts
    exactly the well-formed frames. *)
Lemma accepts_short (data : list byte) :
  size data < 65538 -> accepts data = well_formed data.
Proof.
  intros Hs. unfold accepts, well_formed.
  destruct (Z.leb_spec 24 (size data)) as [H24 | H24]; [|reflexivity].
  rewrite offsetSum_small by lia.
  replace (size data - 2 + 1) with (size data - 1) by lia.
  reflexivity.
Qed.

Lemma decode_short (data : list byte) (status : FridgeStatus_t) :
  size data < 65538 ->
  decodeFridgeQuerySingleZone data status
  = Some (if well_formed data then (true, report_of data) else (false, status)).
Proof. intros Hs. rewrite decode_eq, accepts_short by exact Hs. reflexivity. Qed.

(** Any input shorter than 24 bytes is refused. *)
Lemma decode_too_short (data : list byte) (status : FridgeStatus_t) :
  size data < 24 -> decodeFridgeQuerySingleZone data status = Some (false, status).
Proof.
  intros Hs. rewrite decode_short by lia. unfold well_formed.
  replace (24 <=? size data) with false by (symmetry; apply Z.leb_gt; lia).
  reflexivity.
Qed.

(** C2, at a frame of 65560 bytes. [offsetSum] is a [uint16_t]: 65558 is
    stored as 22, the decoder sums the first 22 bytes and compares with bytes
    22 and 23, and accepts a frame whose last two bytes (00 00) are not the
    sum of the bytes before them (1531). *)
Theorem decode_long_frame_ignores_trailer :
  size long_frame = 65560
  /\ offsetSum_of long_frame = 22
  /\ well_formed long_frame = false
  /\ byte_sum (firstn (Z.to_nat (size long_frame - 2)) long_frame) mod 2 ^ 16 = 1531
  /\ u8 (byte_at long_frame (size long_frame - 2)) * 256
     + u8 (byte_at long_frame (size long_frame - 1)) = 0
  /\ decodeFridgeQuerySingleZone long_frame blank_status
     = Some (true, mkStatus false true 1 2 (-4) 20 (-20) 2 0 0 0 0 0 0 (-3) 87 12 8).
Proof. vm_compute. repeat split. Qed.

(** ** The declared length *)

(** Below 65538 bytes the decoder does not look at byte 2 beyond summing it:
    two frames that differ in it, each with its own right trailer, decode
    alike. *)
Lemma declared_length_ignored_short (a b : list byte) (status : FridgeStatus_t) :
  size a < 65538 ->
  same_but_declared_length a b ->
  trailer_ok a = true -> trailer_ok b = true ->
  decodeFridgeQuerySingleZone a status = decodeFridgeQuerySingleZone b status.
Proof.
  intros Hs [Hlen Hsame] Ha Hb.
  rewrite !decode_short by lia.
  destruct (Z.leb_spec 24 (size a)) as [H24 | H24].
  - assert (Hw : well_formed a = well_formed b).
    { unfold well_formed. fold (trailer_ok a). fold (trailer_ok b).
      rewrite Ha, Hb, <- Hlen.
      rewrite (Hsame 0), (Hsame 1), (Hsame 3) by lia. reflexivity. }
    rewrite Hw. destruct (well_formed b); [|reflexivity].
    unfold report_of.
    rewrite (Hsame 4), (Hsame 5), (Hsame 6), (Hsame 7), (Hsame 8), (Hsame 9),
      (Hsame 10), (Hsame 11), (Hsame 12), (Hsame 13), (Hsame 14), (Hsame 15),
      (Hsame 16), (Hsame 17), (Hsame 18), (Hsame 19), (Hsame 20), (Hsame 21) by lia.
    reflexivity.
  - unfold well_formed. rewrite <- Hlen.
    replace (24 <=? size a) with false by (symmetry; apply Z.leb_gt; lia).
    reflexivity.
Qed.

Lemma bytes_eqb_eq (a : list byte) : forall b, bytes_eqb a b = true -> a = b.
Proof.
  induction a as [| x a IH]; intros [| y b] H; simpl in H; try discriminate.
  - reflexivity.
  - apply andb_prop in H. destruct H as [Hx Hr].
    apply Z.eqb_eq, byte.unsigned_inj in Hx. subst y.
    f_equal. apply IH, Hr.
Qed.

(** [same_but_declared_length] from the pieces before and after byte 2. *)
Lemma same_but_declared_length_parts (a b : list byte) :
  size a = size b ->
  firstn 2 a = firstn 2 b ->
  skipn 3 (firstn (Z.to_nat (size a - 2)) a) = skipn 3 (firstn (Z.to_nat (size a - 2)) b) ->
  same_but_declared_length a b.
Proof.
  intros Hlen H2 H3. split; [exact Hlen|].
  intros i Hi Hne. unfold byte_at.
  destruct (Z.ltb_spec i 2) as [Hlt | Hge].
  - pose proof (nth_firstn 2 a (Z.to_nat i) Byte.x00) as Ea.
    pose proof (nth_firstn 2 b (Z.to_nat i) Byte.x00) as Eb.
    replace (Z.to_nat i <? 2)%nat with true in Ea, Eb
      by (symmetry; apply Nat.ltb_lt; lia).
    rewrite <- Ea, <- Eb, H2. reflexivity.
  - set (n := Z.to_nat (size a - 2)) in *.
    pose proof (nth_skipn 3 (firstn n a) (Z.to_nat i - 3) Byte.x00) as Ea.
    pose proof (nth_skipn 3 (firstn n b) (Z.to_nat i - 3) Byte.x00) as Eb.
    rewrite nth_firstn in Ea, Eb.
    replace (3 + (Z.to_nat i - 3))%nat with (Z.to_nat i) in Ea, Eb by lia.
    replace (Z.to_nat i <? n)%nat with true in Ea, Eb
      by (symmetry; apply Nat.ltb_lt; unfold n; lia).
    rewrite <- Ea, <- Eb, H3. reflexivity.
Qed.

(** C9, at two frames of 65560 bytes that differ in byte 2 only and carry
    each the right sum of its own bytes: [offsetSum] is 22 for both, so the
    decoder compares bytes 22 and 23 with the sum of the first 22 bytes, byte
    2 among them; it accepts the first frame and refuses the second. *)
Theorem declared_length_decides_long_frames :
  size long_a = 65560
  /\ same_but_declared_length long_a long_b
  /\ trailer_ok long_a = true /\ trailer_ok long_b = true
  /\ offsetSum_of long_a = 22 /\ offsetSum_of long_b = 22
  /\ decodeFridgeQuerySingleZone long_a blank_status
     = Some (true, mkStatus false true 1 2 (-4) 20 (-20) 2 0 0 0 0 0 0 (-3) 87 12 8)
  /\ decodeFridgeQuerySingleZone long_b blank_status = Some (false, blank_status).
Proof.
  split; [vm_compute; reflexivity|].
  split.
  { apply same_but_declared_length_parts.
    - vm_compute; reflexivity.
    - reflexivity.
    - apply bytes_eqb_eq. vm_compute. reflexivity. }
  repeat (split; [vm_compute; reflexivity|]).
  vm_compute; reflexivity.
Qed.

(** ** No partial report *)

(** C7. The decoder is a function of its input alone: for every input the
    result flag is the same whatever the caller's record held; when the flag
    is [false] the record comes back as it was given, no field written; when
    it is [true] the record is determined by the input alone. *)
Theorem decode_leaves_record_on_failure (data : list byte) (st1 st2 : FridgeStatus_t) :
  exists (ok : bool) (r : FridgeStatus_t),
    decodeFridgeQuerySingleZone data st1 = Some (ok, if ok then r else st1)
    /\ decodeFridgeQuerySingleZone data st2 = Some (ok, if ok then r else st2).
Proof.
  exists (accepts data), (report_of data).
  rewrite !decode_eq. destruct (accepts data); split; reflexivity.
Qed.

(** ** The notification slot *)

Lemma notify_copy_loop (pData : list byte) :
  forall s,
    fold_left (fun s b => set_data (push_back (g_lastNotificationData s) b) s) pData s
    = set_data (g_lastNotificationData s ++ pData) s.
Proof.
  induction pData as [| b pData IH]; intros s.
  - simpl. rewrite app_nil_r. destruct s; reflexivity.
  - cbn [fold_left]. rewrite IH. unfold push_back, set_data. cbn.
    rewrite <- app_assoc. reflexivity.
Qed.

Lemma notifyCallback_eq (pData : list byte) (s : Session) :
  notifyCallback pData s = set_newData true (set_data pData s).
Proof.
  unfold notifyCallback. cbv zeta. rewrite notify_copy_loop. reflexivity.
Qed.

(** Steps 1 to 3 of [loop] leave the slot alone. *)
Lemma slot_scanStep (f : bool) (s : Session) : slot (scanStep f s) = slot s.
Proof. unfold scanStep, onResult. destruct (_ && _), f; reflexivity. Qed.

Lemma slot_connectStep (o : ConnectOutcome) (t : Z) (s : Session) :
  slot (connectStep o t s) = slot s.
Proof. unfold connectStep. destruct (doConnect s), o; reflexivity. Qed.

Lemma slot_queryStep (now : Z) (s : Session) : slot (queryStep now s) = slot s.
Proof.
  unfold queryStep.
  destruct (connected s), (pRemoteCharacteristicWrite s); try reflexivity.
  destruct (_ <=? _); reflexivity.
Qed.

Lemma slot_before_drain (i : TickInput) (s : Session) :
  slot (queryStep (nowMillis i)
          (connectStep (outcome i) (connectMillis i) (scanStep (scanFound i) s)))
  = slot s.
Proof. rewrite slot_queryStep, slot_connectStep, slot_scanStep. reflexivity. Qed.

Lemma drainPending_slot (s : Session) :
  fst (drainPending s) = (if snd (slot s) then Some (fst (slot s)) else None)
  /\ slot (snd (drainPending s)) = (fst (slot s), false).
Proof.
  unfold drainPending, slot. cbn [fst snd].
  destruct (g_newDataAvailable s) eqn:E; cbn [fst snd]; [split; reflexivity|].
  rewrite E. split; reflexivity.
Qed.

(** What a pass of [loop] does with the slot. *)
Lemma loop_slot (i : TickInput) (s : Session) :
  snd (loop i s)
  = (if g_newDataAvailable s
     then Some (decodeFridgeQuerySingleZone (g_lastNotificationData s) (st i))
     else None)
  /\ slot (fst (loop i s)) = (g_lastNotificationData s, false).
Proof.
  unfold loop. cbv zeta.
  pose proof (slot_before_drain i s) as Hs.
  set (s3 := queryStep _ _) in *.
  unfold slot in Hs. injection Hs as Hd Hf.
  unfold drainPending. rewrite Hf, Hd.
  destruct (g_newDataAvailable s) eqn:E; cbn [fst snd]; split; try reflexivity.
  - unfold slot. cbn. rewrite Hd. reflexivity.
  - unfold slot. rewrite Hd, Hf. reflexivity.
Qed.

(** C4. After two notifications [a] then [b] with no drain in between, in
    any state of the session, the drain gives exactly [b] and the drain after
    it gives nothing; so does [loop]: the next pass decodes [b], the pass
    after it has nothing to decode. The notifications leave the phase as it
    was. *)
Theorem single_slot_overwrite (s : Session) (a b : list byte) (i j : TickInput) :
  let s2 := notifyCallback b (notifyCallback a s) in
  fst (drainPending s2) = Some b
  /\ fst (drainPending (snd (drainPending s2))) = None
  /\ snd (loop i s2) = Some (decodeFridgeQuerySingleZone b (st i))
  /\ snd (loop j (fst (loop i s2))) = None
  /\ phase s2 = phase s.
Proof.
  intros s2. unfold s2. rewrite !notifyCallback_eq.
  split; [reflexivity|]. split; [reflexivity|].
  split; [|split; [|reflexivity]].
  - rewrite (proj1 (loop_slot i _)). reflexivity.
  - rewrite (proj1 (loop_slot j _)).
    pose proof (proj2 (loop_slot i (set_newData true (set_data b (set_newData true (set_data a s)))))) as H.
    unfold slot in H. injection H as _ Hf. rewrite Hf. reflexivity.
Qed.

(** ** Reachable sessions *)

Lemma session_inv_initial : session_inv initial.
Proof. split; [reflexivity | discriminate]. Qed.

Lemma queryStep_flags (now : Z) (s : Session) :
  doConnect (queryStep now s) = doConnect s
  /\ connected (queryStep now s) = connected s
  /\ pRemoteCharacteristicWrite (queryStep now s) = pRemoteCharacteristicWrite s
  /\ pRemoteCharacteristicNotify (queryStep now s) = pRemoteCharacteristicNotify s.
Proof.
  unfold queryStep.
  destruct (connected s) eqn:Ec, (pRemoteCharacteristicWrite s) eqn:Ew;
    try (repeat split; congruence).
  destruct (_ <=? _); repeat split; cbn; congruence.
Qed.

Lemma drainPending_flags (s : Session) :
  doConnect (snd (drainPending s)) = doConnect s
  /\ connected (snd (drainPending s)) = connected s
  /\ pRemoteCharacteristicWrite (snd (drainPending s)) = pRemoteCharacteristicWrite s
  /\ pRemoteCharacteristicNotify (snd (drainPending s)) = pRemoteCharacteristicNotify s
  /\ lastQueryMillis (snd (drainPending s)) = lastQueryMillis s
  /\ written (snd (drainPending s)) = written s.
Proof. unfold drainPending. destruct (g_newDataAvailable s); repeat split; reflexivity. Qed.

Lemma fst_loop (i : TickInput) (s : Session) :
  fst (loop i s)
  = snd (drainPending
           (queryStep (nowMillis i)
              (connectStep (outcome i) (connectMillis i) (scanStep (scanFound i) s)))).
Proof.
  unfold loop. cbv zeta.
  destruct (drainPending _) as [[bytes |] s']; reflexivity.
Qed.

Lemma session_inv_connect (i : TickInput) (s : Session) :
  session_inv s ->
  session_inv (connectStep (outcome i) (connectMillis i) (scanStep (scanFound i) s)).
Proof.
  intros [Hd Hc]. destruct s as [dc cn w n l d f wr].
  cbn [doConnect connected pRemoteCharacteristicWrite pRemoteCharacteristicNotify] in Hd, Hc.
  subst dc. unfold session_inv, scanStep, connectStep, onResult.
  destruct cn; [split; [reflexivity | exact Hc]|].
  destruct (scanFound i); [|split; [reflexivity | discriminate]].
  destruct (outcome i); (split; [reflexivity|]); try discriminate.
  intros _. split; discriminate.
Qed.

Lemma session_inv_step (s : Session) (e : Event) :
  session_inv s -> session_inv (step s e).
Proof.
  intros H. destruct e as [i | pData |]; cbn [step].
  - rewrite fst_loop.
    pose proof (session_inv_connect i s H) as [Hd Hc].
    set (s2 := connectStep _ _ _) in *.
    destruct (queryStep_flags (nowMillis i) s2) as (Q1 & Q2 & Q3 & Q4).
    destruct (drainPending_flags (queryStep (nowMillis i) s2)) as (D1 & D2 & D3 & D4 & _).
    unfold session_inv. rewrite D1, D2, D3, D4, Q1, Q2, Q3, Q4.
    split; assumption.
  - rewrite notifyCallback_eq. exact H.
  - destruct H as [Hd _]. split; [exact Hd | discriminate].
Qed.

Lemma reachable_inv (s : Session) : reachable s -> session_inv s.
Proof.
  intros [es ->]. unfold run.
  induction es as [| e es IH] using rev_ind.
  - exact session_inv_initial.
  - rewrite fold_left_app. cbn [fold_left]. apply session_inv_step, IH.
Qed.

Lemma reachable_step (s : Session) (e : Event) : reachable s -> reachable (step s e).
Proof.
  intros [es ->]. exists (es ++ [e]). unfold run. rewrite fold_left_app. reflexivity.
Qed.

(** ** First contact and polling *)


(** While the link is up a pass of [loop] is its query step followed by the
    drain. *)
Lemma loop_connected (i : TickInput) (s : Session) :
  connected s = true -> doConnect s = false ->
  fst (loop i s) = snd (drainPending (queryStep (nowMillis i) s)).
Proof.
  intros Hc Hd. rewrite fst_loop. unfold scanStep, connectStep.
  rewrite Hc. cbn [negb andb]. rewrite Hd. reflexivity.
Qed.


Example first_tick_session :
  run initial [Tick first_tick]
  = mkSession false true (Some 1) (Some 2) 1500 [] false [bind_bytes; query_bytes].
Proof. vm_compute. reflexivity. Qed.

Example timer_wraps_at_connect :
  lastQueryMillis (snd (connectToServer (EndpointsResolved 1 2 true) 1200 initial))
  = 4294908496.
Proof. vm_compute. reflexivity. Qed.


(** ** Disconnect *)

(** C8, as the claim has it, fails: after the first pass of [loop] has bound
    the session, a disconnect leaves both characteristic handles in place. *)
Lemma disconnect_keeps_handles :
  let s := run initial [Tick first_tick] in
  phase s = Bound
  /\ pRemoteCharacteristicWrite (step s Disconnect) <> None
  /\ pRemoteCharacteristicNotify (step s Disconnect) <> None.
Proof. cbv zeta. rewrite first_tick_session. repeat split; discriminate. Qed.

(** A quiet event on a disconnected session changes neither the handles nor
    the frames written, and leaves it disconnected. *)
Lemma quiet_step (s : Session) (e : Event) :
  session_inv s -> connected s = false -> quiet e ->
  connected (step s e) = false
  /\ pRemoteCharacteristicWrite (step s e) = pRemoteCharacteristicWrite s
  /\ pRemoteCharacteristicNotify (step s e) = pRemoteCharacteristicNotify s
  /\ written (step s e) = written s.
Proof.
  intros [Hd _] Hc Hq. destruct e as [i | pData |]; cbn [step quiet] in *.
  - rewrite fst_loop.
    destruct (drainPending_flags
                (queryStep (nowMillis i)
                   (connectStep (outcome i) (connectMillis i) (scanStep (scanFound i) s))))
      as (_ & D2 & D3 & D4 & _ & D6).
    rewrite D2, D3, D4, D6. clear D2 D3 D4 D6.
    destruct s as [dc cn wh nh l d f wr].
    cbn [doConnect connected] in Hd, Hc. subst dc cn.
    unfold scanStep, connectStep, onResult, queryStep.
    destruct (scanFound i); [|repeat split].
    destruct (outcome i); cbn [reaches_lookup andb] in Hq; try discriminate Hq;
      repeat split.
  - rewrite notifyCallback_eq. repeat split. exact Hc.
  - repeat split.
Qed.

Lemma quiet_run (es : list Event) :
  Forall quiet es ->
  forall s, session_inv s -> connected s = false ->
    session_inv (run s es)
    /\ connected (run s es) = false
    /\ pRemoteCharacteristicWrite (run s es) = pRemoteCharacteristicWrite s
    /\ pRemoteCharacteristicNotify (run s es) = pRemoteCharacteristicNotify s
    /\ written (run s es) = written s.
Proof.
  induction 1 as [| e es He _ IH]; intros s Hi Hc;
    [split; [exact Hi | split; [exact Hc | repeat split]]|].
  destruct (quiet_step s e Hi Hc He) as (Hc1 & Hw1 & Hn1 & Hwr1).
  destruct (IH (step s e) (session_inv_step s e Hi) Hc1) as (Hi2 & Hc2 & Hw2 & Hn2 & Hwr2).
  unfold run in *. cbn [fold_left].
  rewrite Hw2, Hn2, Hwr2, Hw1, Hn1, Hwr1.
  split; [exact Hi2 | split; [exact Hc2 | repeat split]].
Qed.

(** What a pass of [loop] whose scan finds the fridge does to the handles of
    a disconnected session: the lookups of [connectToServer] assign them. *)
Lemma connect_assigns_handles (i : TickInput) (s : Session) :
  session_inv s -> connected s = false -> scanFound i = true ->
  match outcome i with
  | EndpointsResolved w n _ =>
      connected (fst (loop i s)) = true
      /\ pRemoteCharacteristicWrite (fst (loop i s)) = Some w
      /\ pRemoteCharacteristicNotify (fst (loop i s)) = Some n
  | WriteNotFound =>
      connected (fst (loop i s)) = false
      /\ pRemoteCharacteristicWrite (fst (loop i s)) = None
      /\ pRemoteCharacteristicNotify (fst (loop i s)) = pRemoteCharacteristicNotify s
  | NotifyNotFound w =>
      connected (fst (loop i s)) = false
      /\ pRemoteCharacteristicWrite (fst (loop i s)) = Some w
      /\ pRemoteCharacteristicNotify (fst (loop i s)) = None
  | ConnectFailed | ServiceNotFound =>
      connected (fst (loop i s)) = false
      /\ pRemoteCharacteristicWrite (fst (loop i s)) = pRemoteCharacteristicWrite s
      /\ pRemoteCharacteristicNotify (fst (loop i s)) = pRemoteCharacteristicNotify s
  end.
Proof.
  intros [Hd _] Hc Hf. rewrite fst_loop.
  destruct (drainPending_flags
              (queryStep (nowMillis i)
                 (connectStep (outcome i) (connectMillis i) (scanStep (scanFound i) s))))
    as (_ & D2 & D3 & D4 & _ & _).
  rewrite D2, D3, D4, Hf. clear D2 D3 D4.
  destruct s as [dc cn wh nh l d f wr].
  cbn [doConnect connected] in Hd, Hc. subst dc cn.
  unfold scanStep, connectStep, onResult, queryStep.
  destruct (outcome i); try (repeat split; fail).
  cbn. destruct (_ <=? _); repeat split.
Qed.

(** C8, amended. A disconnect event on a connected session, whenever it
    comes, takes the session to [Disconnected] by clearing [connected] and
    nothing else: the write and notify handles keep the values resolved at
    connect time, and the query step of the following passes writes nothing
    through them. They keep those values, the session staying
    [Disconnected] and writing no frame, through every later notification,
    disconnect and pass of [loop] whose scan finds nothing or whose connect
    fails before the characteristics are looked up; the first
    [connectToServer] that reaches the lookup overwrites them: with the
    handles it resolves, or with [nullptr] for the one it does not find. *)
Theorem disconnect_clears_connected_only (s : Session) :
  reachable s -> connected s = true ->
  let s' := step s Disconnect in
  phase s' = Disconnected
  /\ s' = set_connected false s
  /\ pRemoteCharacteristicWrite s' = pRemoteCharacteristicWrite s
  /\ pRemoteCharacteristicNotify s' = pRemoteCharacteristicNotify s
  /\ pRemoteCharacteristicWrite s' <> None
  /\ pRemoteCharacteristicNotify s' <> None
  /\ (forall now, queryStep now s' = s')
  /\ (forall es : list Event,
         Forall quiet es ->
         phase (run s' es) = Disconnected
         /\ pRemoteCharacteristicWrite (run s' es) = pRemoteCharacteristicWrite s
         /\ pRemoteCharacteristicNotify (run s' es) = pRemoteCharacteristicNotify s
         /\ written (run s' es) = written s)
  /\ (forall (es : list Event) (i : TickInput),
         Forall quiet es -> scanFound i = true ->
         let s2 := fst (loop i (run s' es)) in
         match outcome i with
         | EndpointsResolved w n _ =>
             phase s2 = Bound
             /\ pRemoteCharacteristicWrite s2 = Some w
             /\ pRemoteCharacteristicNotify s2 = Some n
         | WriteNotFound =>
             phase s2 = Disconnected
             /\ pRemoteCharacteristicWrite s2 = None
             /\ pRemoteCharacteristicNotify s2 = pRemoteCharacteristicNotify s
         | NotifyNotFound w =>
             phase s2 = Disconnected
             /\ pRemoteCharacteristicWrite s2 = Some w
             /\ pRemoteCharacteristicNotify s2 = None
         | ConnectFailed | ServiceNotFound =>
             phase s2 = Disconnected
             /\ pRemoteCharacteristicWrite s2 = pRemoteCharacteristicWrite s
             /\ pRemoteCharacteristicNotify s2 = pRemoteCharacteristicNotify s
         end).
Proof.
  intros Hr Hc. cbv zeta.
  pose proof (reachable_inv s Hr) as Hi.
  pose proof (session_inv_step s Disconnect Hi) as Hi'.
  assert (Hc' : connected (step s Disconnect) = false) by reflexivity.
  assert (Hw' : pRemoteCharacteristicWrite (step s Disconnect)
                = pRemoteCharacteristicWrite s) by reflexivity.
  assert (Hn' : pRemoteCharacteristicNotify (step s Disconnect)
                = pRemoteCharacteristicNotify s) by reflexivity.
  assert (Hwr' : written (step s Disconnect) = written s) by reflexivity.
  destruct Hi as [Hd Hh]. destruct (Hh Hc) as [Hw Hn].
  split; [unfold phase; rewrite Hc'; cbn [step]; unfold onDisconnect;
          change (doConnect (set_connected false s)) with (doConnect s);
          rewrite Hd; reflexivity|].
  split; [reflexivity|].
  split; [exact Hw'|]. split; [exact Hn'|].
  split; [rewrite Hw'; exact Hw|]. split; [rewrite Hn'; exact Hn|].
  split; [intros now; unfold queryStep; rewrite Hc'; reflexivity|].
  split.
  - intros es He.
    destruct (quiet_run es He _ Hi' Hc') as ([Hd2 _] & Hc2 & Hw2 & Hn2 & Hwr2).
    unfold phase. rewrite Hc2, Hd2, Hw2, Hn2, Hwr2, Hw', Hn', Hwr'. repeat split.
  - intros es i He Hf. cbv zeta.
    destruct (quiet_run es He _ Hi' Hc') as (Hi2 & Hc2 & Hw2 & Hn2 & _).
    pose proof (connect_assigns_handles i _ Hi2 Hc2 Hf) as H.
    assert (Hd3 : doConnect (fst (loop i (run (step s Disconnect) es))) = false)
      by (apply (session_inv_step _ (Tick i) Hi2)).
    unfold phase. rewrite Hd3.
    destruct (outcome i); destruct H as (H1 & H2 & H3);
      rewrite H1, H2, H3, ?Hw2, ?Hn2, ?Hw', ?Hn'; repeat split.
Qed.

Lemma disconnect_clears_connected_only_witness :
  phase (step (run initial [Tick first_tick]) Disconnect) = Disconnected
  /\ pRemoteCharacteristicWrite (step (run initial [Tick first_tick]) Disconnect) = Some 1
  /\ pRemoteCharacteristicWrite
       (run (step (run initial [Tick first_tick]) Disconnect)
          [Tick later_tick; Notification sample_payload; Disconnect])
     = Some 1
  /\ pRemoteCharacteristicWrite
       (fst (loop (mkTick true (EndpointsResolved 7 8 true) 70000 70001 blank_status)
               (run (step (run initial [Tick first_tick]) Disconnect)
                  [Tick later_tick; Notification sample_payload; Disconnect])))
     = Some 7.
Proof.
  assert (Hr : reachable (run initial [Tick first_tick]))
    by (exists [Tick first_tick]; reflexivity).
  assert (Hc : connected (run initial [Tick first_tick]) = true) by reflexivity.
  assert (Hq : Forall quiet [Tick later_tick; Notification sample_payload; Disconnect])
    by (repeat constructor).
  pose proof (disconnect_clears_connected_only _ Hr Hc) as H.
  destruct H as (H1 & _ & H3 & _ & _ & _ & _ & H8 & H9).
  split; [exact H1|].
  split; [rewrite H3; reflexivity|].
  split; [rewrite (proj1 (proj2 (H8 _ Hq))); reflexivity|].
  exact (proj1 (proj2 (H9 _ (mkTick true (EndpointsResolved 7 8 true) 70000 70001 blank_status)
                         Hq eq_refl))).
Defined.

(** * Further properties of the codec *)

(** ** Bounds of the reads *)

(** X1. [calculateChecksum buf len] stays inside the buffer exactly when
    [len] is at most its length, and then returns the sum of the first [len]
    bytes modulo 2^16; with a larger [len] the loop reads past the end. *)
Theorem calculateChecksum_prefix_or_overrun (buf : list byte) (len : Z) :
  calculateChecksum buf len
  = if len <=? size buf
    then Some (byte_sum (firstn (Z.to_nat len) buf) mod 2 ^ 16)
    else None.
Proof.
  destruct (Z.leb_spec len (size buf)) as [Hle | Hgt].
  - destruct (Z.le_gt_cases 0 len) as [H0 | H0].
    + apply calculateChecksum_in. lia.
    + unfold calculateChecksum. replace (Z.to_nat len) with 0%nat by lia. reflexivity.
  - unfold calculateChecksum.
    change buf with ([] ++ buf) at 1. change 0 with (size []) at 1.
    rewrite checksum_loop_out by (unfold size in Hgt; lia). reflexivity.
Qed.

(** X2. Whatever the buffer, the decoder never reads past its end: every
    index it uses, [offsetSum] and [offsetSum + 1] among them, lies inside
    the buffer, and so does the range it hands to [calculateChecksum]. *)
Theorem decode_reads_in_bounds (data : list byte) (status : FridgeStatus_t) :
  decodeFridgeQuerySingleZone data status <> None
  /\ (if 24 <=? size data
      then (offsetSum_of data + 1 <? size data) = true
           /\ calculateChecksum data (offsetSum_of data) <> None
      else True).
Proof.
  split.
  - rewrite decode_eq. discriminate.
  - destruct (Z.leb_spec 24 (size data)) as [H | H]; [|exact I].
    pose proof (offsetSum_bounds data H) as Hk. split.
    + apply Z.ltb_lt. lia.
    + rewrite calculateChecksum_in by lia. discriminate.
Qed.

(** ** What is accepted *)

(** X3. On an input shorter than 65538 bytes the decoder returns [true]
    exactly when the input has at least 24 bytes, starts with FE FE, has 01
    as byte 3, and its last two bytes are, high byte first, the sum modulo
    2^16 of all the bytes before them; the record then holds bytes 4 to 21,
    and otherwise is left as it was. *)
Theorem decode_accepts_well_formed (data : list byte) (status : FridgeStatus_t) :
  size data < 65538 ->
  decodeFridgeQuerySingleZone data status
  = Some (if well_formed data then (true, report_of data) else (false, status)).
Proof. apply decode_short. Qed.

Lemma decode_accepts_well_formed_witness :
  size (response_head ++ sample_payload ++ [Byte.x05; Byte.x7b]) < 65538
  /\ well_formed (response_head ++ sample_payload ++ [Byte.x05; Byte.x7b]) = true
  /\ decodeFridgeQuerySingleZone
       (response_head ++ sample_payload ++ [Byte.x05; Byte.x7b]) blank_status
     = Some (true, report_of (response_head ++ sample_payload ++ [Byte.x05; Byte.x7b])).
Proof.
  assert (Hs : size (response_head ++ sample_payload ++ [Byte.x05; Byte.x7b]) < 65538)
    by reflexivity.
  split; [exact Hs|]. split; [reflexivity|].
  exact (decode_accepts_well_formed _ blank_status Hs).
Defined.

(** X4. At every length, a result [true] means that the input has at least
    24 bytes, starts with FE FE and has 01 as byte 3, and the record
    returned is made of bytes 4 to 21 and of nothing else. *)
Theorem decode_true_only_if (data : list byte) (status r : FridgeStatus_t) :
  decodeFridgeQuerySingleZone data status = Some (true, r) ->
  24 <= size data
  /\ byte_at data 0 = Byte.xfe
  /\ byte_at data 1 = Byte.xfe
  /\ byte_at data 3 = Byte.x01
  /\ r = report_of data.
Proof.
  rewrite decode_eq. unfold accepts.
  destruct (Z.leb_spec 24 (size data)) as [H24 | H24]; [|discriminate].
  destruct (Z.eqb_spec (u8 (byte_at data 0)) 254) as [E0 | E0]; [|discriminate].
  destruct (Z.eqb_spec (u8 (byte_at data 1)) 254) as [E1 | E1]; [|discriminate].
  destruct (Z.eqb_spec (u8 (byte_at data 3)) 1) as [E3 | E3]; [|discriminate].
  cbn [andb]. destruct (_ =? _); [|discriminate].
  intros H. injection H as H.
  repeat split; try (apply byte.unsigned_inj; assumption); [exact H24 | congruence].
Qed.

Lemma decode_true_only_if_witness :
  byte_at (response_head ++ sample_payload ++ [Byte.x05; Byte.x7b]) 3 = Byte.x01
  /\ leftCurrent (report_of (response_head ++ sample_payload ++ [Byte.x05; Byte.x7b])) = -3.
Proof.
  pose proof (decode_true_only_if _ _ _ decode_sample) as (_ & _ & _ & H3 & Hr).
  split; [exact H3|]. rewrite <- Hr. reflexivity.
Defined.

(** X5. Below 65538 bytes the declared length, byte 2, is free: two inputs
    of the same length that agree everywhere but in byte 2 and in their two
    trailing bytes, each trailer being the right sum for its own bytes, give
    the same result and the same record. *)
Theorem declared_length_free_below_65538
  (a b : list byte) (status : FridgeStatus_t) :
  size a < 65538 ->
  same_but_declared_length a b ->
  trailer_ok a = true -> trailer_ok b = true ->
  decodeFridgeQuerySingleZone a status = decodeFridgeQuerySingleZone b status.
Proof. apply declared_length_ignored_short. Qed.

Lemma declared_length_free_below_65538_witness :
  decodeFridgeQuerySingleZone
    ([Byte.xfe; Byte.xfe; Byte.x14; Byte.x01] ++ sample_payload ++ [Byte.x05; Byte.x7b])
    blank_status
  = decodeFridgeQuerySingleZone
      ([Byte.xfe; Byte.xfe; Byte.x03; Byte.x01] ++ sample_payload ++ [Byte.x05; Byte.x6a])
      blank_status.
Proof.
  apply declared_length_free_below_65538.
  - reflexivity.
  - apply same_but_declared_length_parts; reflexivity.
  - reflexivity.
  - reflexivity.
Defined.

(** ** A changed byte *)

Lemma length_set_byte (data : list byte) :
  forall i x, length (set_byte data i x) = length data.
Proof.
  induction data as [| y data IH]; intros [| i] x; simpl; try reflexivity.
  rewrite IH. reflexivity.
Qed.

Lemma nth_set_byte (data : list byte) :
  forall i j x d, (i < length data)%nat ->
    nth j (set_byte data i x) d = if Nat.eqb j i then x else nth j data d.
Proof.
  induction data as [| y data IH]; intros i j x d Hi; [simpl in Hi; lia|].
  destruct i as [| i], j as [| j]; simpl; try reflexivity.
  apply IH. simpl in Hi. lia.
Qed.

Lemma byte_sum_firstn_set_byte (data : list byte) :
  forall i k x, (i < length data)%nat ->
    byte_sum (firstn k (set_byte data i x))
    = byte_sum (firstn k data)
      + (if Nat.ltb i k then u8 x - u8 (nth i data Byte.x00) else 0).
Proof.
  induction data as [| y data IH]; intros i k x Hi; [simpl in Hi; lia|].
  destruct k as [| k]; [simpl; destruct i; reflexivity|].
  destruct i as [| i].
  - cbn [set_byte firstn byte_sum fold_right nth Nat.ltb Nat.leb]. lia.
  - cbn [set_byte firstn byte_sum fold_right nth].
    fold (byte_sum (firstn k (set_byte data i x))). fold (byte_sum (firstn k data)).
    rewrite IH by (simpl in Hi; lia).
    change (Nat.ltb (S i) (S k)) with (Nat.ltb i k). lia.
Qed.

(** X6. Below 65538 bytes a frame the decoder accepts is refused as soon as
    any one of its bytes is given another value, the checksum bytes
    included: the result is [false] and the caller's record is untouched. *)
Theorem single_byte_change_rejected
  (data : list byte) (i : nat) (x : byte) (status : FridgeStatus_t) :
  size data < 65538 ->
  well_formed data = true ->
  (i < length data)%nat ->
  x <> nth i data Byte.x00 ->
  decodeFridgeQuerySingleZone (set_byte data i x) status = Some (false, status).
Proof.
  intros Hs Hw Hi Hx.
  assert (Hlen : size (set_byte data i x) = size data)
    by (unfold size; rewrite length_set_byte; reflexivity).
  rewrite decode_short by lia.
  replace (well_formed (set_byte data i x)) with false; [reflexivity|].
  symmetry. unfold well_formed in *. rewrite Hlen.
  apply andb_prop in Hw. destruct Hw as [Hw Hc].
  repeat (apply andb_prop in Hw; destruct Hw as [Hw ?]).
  apply Z.leb_le in Hw. apply Z.eqb_eq in Hc.
  apply andb_false_intro2. apply Z.eqb_neq.
  unfold byte_at in *.
  rewrite byte_sum_firstn_set_byte by exact Hi.
  rewrite !nth_set_byte by exact Hi.
  assert (Hd : u8 x <> u8 (nth i data Byte.x00))
    by (intros E; apply Hx, byte.unsigned_inj, E).
  pose proof (u8_range x) as Rx.
  pose proof (u8_range (nth i data Byte.x00)) as Ro.
  unfold size in *.
  destruct (Nat.ltb_spec i (Z.to_nat (Z.of_nat (length data) - 2))) as [Hlt | Hge].
  - replace (Nat.eqb (Z.to_nat (Z.of_nat (length data) - 2)) i) with false
      by (symmetry; apply Nat.eqb_neq; lia).
    replace (Nat.eqb (Z.to_nat (Z.of_nat (length data) - 1)) i) with false
      by (symmetry; apply Nat.eqb_neq; lia).
    rewrite <- Hc. change (2 ^ 16) with 65536. intros E.
    apply Z.cong_iff_ex in E. destruct E as [k Hk]. lia.
  - rewrite Z.add_0_r, Hc.
    destruct (Nat.eqb_spec (Z.to_nat (Z.of_nat (length data) - 2)) i) as [E2 | E2].
    + replace (Nat.eqb (Z.to_nat (Z.of_nat (length data) - 1)) i) with false
        by (symmetry; apply Nat.eqb_neq; lia).
      subst i. lia.
    + assert (E1 : i = Z.to_nat (Z.of_nat (length data) - 1)) by lia.
      replace (Nat.eqb (Z.to_nat (Z.of_nat (length data) - 1)) i) with true
        by (symmetry; apply Nat.eqb_eq; lia).
      subst i. lia.
Qed.

Lemma single_byte_change_rejected_witness :
  decodeFridgeQuerySingleZone
    (set_byte (response_head ++ sample_payload ++ [Byte.x05; Byte.x7b]) 18 Byte.xfe)
    blank_status
  = Some (false, blank_status).
Proof.
  apply single_byte_change_rejected.
  - reflexivity.
  - reflexivity.
  - simpl. lia.
  - discriminate.
Defined.

(** ** Frames of any length *)

Lemma byte_at_app_l (body tail : list byte) (j : Z) :
  0 <= j < size body -> byte_at (body ++ tail) j = byte_at body j.
Proof.
  intros H. unfold byte_at, size in *. apply app_nth1. lia.
Qed.

Lemma report_of_app (body tail : list byte) :
  22 <= size body -> report_of (body ++ tail) = report_of body.
Proof.
  intros H. unfold report_of.
  rewrite !(byte_at_app_l body tail) by lia. reflexivity.
Qed.

(** X7. Any body of 22 to 65535 bytes that starts with FE FE, any byte, 01,
    followed by its checksum, high byte first, is accepted, and the record
    is made of bytes 4 to 21 of the body: the declared length and whatever
    follows the eighteenth payload byte are summed and otherwise ignored. *)
Theorem framed_body_decodes (body : list byte) (status : FridgeStatus_t) :
  22 <= size body < 65536 ->
  byte_at body 0 = Byte.xfe ->
  byte_at body 1 = Byte.xfe ->
  byte_at body 3 = Byte.x01 ->
  exists c,
    checksum body = Some c
    /\ decodeFridgeQuerySingleZone (body ++ be16 c) status
       = Some (true, report_of body).
Proof.
  intros Hs H0 H1 H3.
  exists (byte_sum body mod 2 ^ 16). split; [apply checksum_byte_sum|].
  set (c := byte_sum body mod 2 ^ 16).
  assert (Hc : 0 <= c < 65536) by (apply Z.mod_pos_bound; lia).
  assert (Hlen : size (body ++ be16 c) = size body + 2)
    by (unfold size; rewrite length_app; simpl; lia).
  rewrite decode_short by lia.
  rewrite report_of_app by lia.
  replace (well_formed (body ++ be16 c)) with true; [reflexivity|].
  symmetry. unfold well_formed. rewrite Hlen.
  rewrite !(byte_at_app_l body (be16 c)) by lia.
  rewrite H0, H1, H3.
  replace (24 <=? size body + 2) with true by (symmetry; apply Z.leb_le; lia).
  cbn [andb]. change (u8 Byte.xfe =? 254) with true. change (u8 Byte.x01 =? 1) with true.
  cbn [andb]. apply Z.eqb_eq.
  replace (size body + 2 - 2) with (size body) by lia.
  replace (size body + 2 - 1) with (size body + 1) by lia.
  unfold size. rewrite Nat2Z.id.
  rewrite firstn_app, firstn_all, Nat.sub_diag. cbn [firstn]. rewrite app_nil_r.
  unfold byte_at. rewrite Nat2Z.id.
  rewrite app_nth2 by lia. rewrite Nat.sub_diag.
  rewrite app_nth2 by lia.
  replace (Z.to_nat (Z.of_nat (length body) + 1) - length body)%nat with 1%nat by lia.
  cbn [be16 nth]. rewrite be16_value by exact Hc. reflexivity.
Qed.

Lemma framed_body_decodes_witness :
  exists c,
    checksum (response_head ++ sample_payload ++ [Byte.x2a; Byte.x2a; Byte.x2a]) = Some c
    /\ decodeFridgeQuerySingleZone
         ((response_head ++ sample_payload ++ [Byte.x2a; Byte.x2a; Byte.x2a]) ++ be16 c)
         blank_status
       = Some (true, mkStatus false true 1 2 (-4) 20 (-20) 2 0 0 0 0 0 0 (-3) 87 12 8).
Proof.
  assert (Hs : 22 <= size (response_head ++ sample_payload ++ [Byte.x2a; Byte.x2a; Byte.x2a])
               < 65536) by (split; [discriminate | reflexivity]).
  exact (framed_body_decodes _ blank_status Hs eq_refl eq_refl eq_refl).
Defined.

(** ** The checksum on short buffers *)

Lemma byte_sum_le (b : list byte) : byte_sum b <= 255 * size b.
Proof.
  unfold size. induction b as [| x b IH]; [simpl; lia|].
  cbn [byte_sum fold_right length]. fold (byte_sum b).
  pose proof (u8_range x). lia.
Qed.

(** X8. A checksum is always below 65536. On a buffer of at most 257 bytes
    nothing wraps and the checksum is the plain sum of the bytes; 258 bytes
    FF already wrap. *)
Theorem checksum_plain_sum_up_to_257 :
  (forall (b : list byte) (c : Z), checksum b = Some c -> 0 <= c < 65536)
  /\ (forall b : list byte, size b <= 257 -> checksum b = Some (byte_sum b))
  /\ checksum (repeat Byte.xff 258) = Some 254.
Proof.
  split; [|split].
  - intros b c H. rewrite checksum_byte_sum in H. injection H as <-.
    apply Z.mod_pos_bound. lia.
  - intros b H. rewrite checksum_byte_sum. f_equal.
    apply Z.mod_small. pose proof (byte_sum_le b). pose proof (byte_sum_nonneg b).
    change (2 ^ 16) with 65536. lia.
  - rewrite checksum_byte_sum. vm_compute. reflexivity.
Qed.

Lemma checksum_plain_sum_up_to_257_witness :
  checksum (response_head ++ sample_payload) = Some 1403
  /\ 0 <= 1403 < 65536.
Proof.
  assert (Hs : size (response_head ++ sample_payload) <= 257) by discriminate.
  pose proof (proj1 (proj2 checksum_plain_sum_up_to_257) _ Hs) as H.
  split; [exact H|].
  exact (proj1 checksum_plain_sum_up_to_257 _ _ H).
Defined.

(** * Further properties of the session *)

(** ** One pass of [loop] *)

(** A pass over a connected session: the query step decides alone. *)
Lemma connected_tick (i : TickInput) (s : Session) :
  session_inv s -> connected s = true ->
  let due := QUERY_INTERVAL_MS <=? wrap32 (nowMillis i - lastQueryMillis s) in
  written (fst (loop i s)) = written s ++ (if due then [query_bytes] else [])
  /\ lastQueryMillis (fst (loop i s)) = (if due then nowMillis i else lastQueryMillis s)
  /\ connected (fst (loop i s)) = true.
Proof.
  intros [Hd Hh] Hc. cbv zeta. destruct (Hh Hc) as [Hw _].
  rewrite (loop_connected i s Hc Hd).
  destruct (drainPending_flags (queryStep (nowMillis i) s)) as (_ & D2 & _ & _ & D5 & D6).
  rewrite D2, D5, D6. unfold queryStep. rewrite Hc.
  destruct (pRemoteCharacteristicWrite s) as [h |]; [|contradiction].
  destruct (QUERY_INTERVAL_MS <=? wrap32 (nowMillis i - lastQueryMillis s)).
  - repeat split. exact Hc.
  - rewrite app_nil_r. repeat split. exact Hc.
Qed.

(** A pass over a disconnected session. *)
Lemma disconnected_tick (i : TickInput) (s : Session) :
  session_inv s -> connected s = false ->
  let s' := fst (loop i s) in
  if scanFound i && negb (failed (outcome i))
  then connected s' = true
       /\ (written s' = written s ++ [bind_bytes]
           \/ written s' = written s ++ [bind_bytes; query_bytes])
  else connected s' = false
       /\ written s' = written s
       /\ lastQueryMillis s' = lastQueryMillis s.
Proof.
  intros [Hd _] Hc. cbv zeta. rewrite fst_loop.
  destruct (drainPending_flags
              (queryStep (nowMillis i)
                 (connectStep (outcome i) (connectMillis i) (scanStep (scanFound i) s))))
    as (_ & D2 & _ & _ & D5 & D6).
  rewrite D2, D5, D6. clear D2 D5 D6.
  destruct s as [dc cn wh nh l d f wr].
  cbn [doConnect connected] in Hd, Hc. subst dc cn.
  unfold scanStep, connectStep, onResult, queryStep.
  destruct (scanFound i); [|repeat split].
  destruct (outcome i); cbn [failed negb andb]; try solve [repeat split].
  cbn. split; [destruct (_ <=? _); reflexivity|].
  destruct (_ <=? _); cbn; [right; rewrite <- app_assoc | left]; reflexivity.
Qed.

(** X9. In every session reached from the initial one, by passes of [loop],
    notifications and disconnects in any order: no connect is pending
    between two events, and whenever [connected] is up both characteristic
    handles are set, so the query step never writes through [nullptr]. *)
Theorem connected_implies_handles (s : Session) :
  reachable s ->
  doConnect s = false
  /\ phase s <> Connecting
  /\ (if connected s
      then pRemoteCharacteristicWrite s <> None /\ pRemoteCharacteristicNotify s <> None
      else True).
Proof.
  intros Hr. destruct (reachable_inv s Hr) as [Hd Hh].
  split; [exact Hd|]. split.
  - unfold phase. rewrite Hd. destruct (connected s); discriminate.
  - destruct (connected s); [apply Hh; reflexivity | exact I].
Qed.

Lemma connected_implies_handles_witness :
  doConnect (run initial [Tick first_tick; Notification sample_payload; Tick later_tick]) = false
  /\ pRemoteCharacteristicWrite
       (run initial [Tick first_tick; Notification sample_payload; Tick later_tick])
     <> None.
Proof.
  assert (Hr : reachable (run initial [Tick first_tick; Notification sample_payload;
                                       Tick later_tick]))
    by (eexists; reflexivity).
  pose proof (connected_implies_handles _ Hr) as (Hd & _ & Hh).
  split; [exact Hd | exact (proj1 Hh)].
Defined.

(** ** The frames written *)

Lemma trace_extend (s s' : Session) (extra : list (list byte)) :
  trace_inv s ->
  written s' = written s ++ extra ->
  Forall is_command extra ->
  (written s = [] -> forall f tl, extra = f :: tl -> f = bind_bytes) ->
  (connected s' = true -> written s <> [] \/ extra <> []) ->
  trace_inv s'.
Proof.
  intros (Hall & Hhd & _) Hw He Hfirst Hne. unfold trace_inv. rewrite Hw.
  split; [apply Forall_app; split; assumption|]. split.
  - intros f tl E. destruct (written s) as [| w0 ws] eqn:Ews.
    + apply (Hfirst eq_refl f tl). exact E.
    + injection E as E _. subst f. apply (Hhd w0 ws). reflexivity.
  - intros Hc E. apply app_eq_nil in E. destruct E as [E1 E2].
    destruct (Hne Hc) as [H | H]; contradiction.
Qed.

Lemma is_command_bind : is_command bind_bytes.
Proof. left. reflexivity. Qed.

Lemma is_command_query : is_command query_bytes.
Proof. right. reflexivity. Qed.

Ltac commands :=
  repeat first [ apply Forall_nil | apply Forall_cons
               | exact is_command_bind | exact is_command_query ].

Lemma trace_inv_step (s : Session) (e : Event) :
  session_inv s -> trace_inv s -> trace_inv (step s e).
Proof.
  intros Hi Ht. destruct e as [i | pData |]; cbn [step].
  - destruct (connected s) eqn:Hc.
    + destruct (connected_tick i s Hi Hc) as (Hw & _ & _).
      apply (trace_extend s _ _ Ht Hw).
      * destruct (_ <=? _); commands.
      * intros E. destruct Ht as (_ & _ & Hne). exfalso. apply (Hne Hc E).
      * intros _. left. destruct Ht as (_ & _ & Hne). apply Hne, Hc.
    + pose proof (disconnected_tick i s Hi Hc) as H. cbv zeta in H.
      destruct (scanFound i && negb (failed (outcome i))).
      * destruct H as (_ & [Hw | Hw]); apply (trace_extend s _ _ Ht Hw);
          try (commands; fail);
          try (intros _ f tl E; injection E as E _; congruence);
          intros _; right; discriminate.
      * destruct H as (Hc' & Hw & _). destruct Ht as (Hall & Hhd & _).
        unfold trace_inv. rewrite Hw, Hc'. repeat split; try assumption. discriminate.
  - rewrite notifyCallback_eq. exact Ht.
  - destruct Ht as (Hall & Hhd & _). repeat split; try assumption. discriminate.
Qed.

Lemma reachable_trace_inv (s : Session) : reachable s -> trace_inv s.
Proof.
  intros [es ->]. unfold run.
  induction es as [| e es IH] using rev_ind.
  - repeat split; [constructor | discriminate | discriminate].
  - rewrite fold_left_app. cbn [fold_left].
    apply trace_inv_step; [|exact IH].
    apply reachable_inv. exists es. reflexivity.
Qed.

(** X10. In every reachable session each frame written so far is the BIND
    or the QUERY literal, the first frame ever written is a BIND, and a
    connected session has written at least one frame: no QUERY goes out
    before a BIND. *)
Theorem only_commands_bind_first (s : Session) :
  reachable s ->
  Forall is_command (written s)
  /\ (forall f tl, written s = f :: tl -> f = bind_bytes)
  /\ (if connected s then written s <> [] else True).
Proof.
  intros Hr. destruct (reachable_trace_inv s Hr) as (Hall & Hhd & Hne).
  split; [exact Hall|]. split; [exact Hhd|].
  destruct (connected s); [apply Hne; reflexivity | exact I].
Qed.

Lemma only_commands_bind_first_witness :
  Forall is_command
    (written (run initial [Tick first_tick; Disconnect; Tick first_tick; Tick later_tick])).
Proof.
  assert (Hr : reachable (run initial [Tick first_tick; Disconnect; Tick first_tick;
                                       Tick later_tick]))
    by (eexists; reflexivity).
  exact (proj1 (only_commands_bind_first _ Hr)).
Defined.

(** X11. One pass of [loop] over a reachable session writes nothing, one
    QUERY, one BIND, or one BIND then one QUERY, and nothing else; over a
    connected session it neither scans nor connects: two passes that read
    the same [millis()] leave the same session, whatever the scan and the
    transport would have answered. *)
Theorem tick_writes_at_most_bind_then_query (s : Session) (i : TickInput) :
  reachable s ->
  (exists extra, written (fst (loop i s)) = written s ++ extra /\ tick_output extra)
  /\ (forall j : TickInput,
         connected s = true -> nowMillis j = nowMillis i ->
         fst (loop j s) = fst (loop i s)).
Proof.
  intros Hr. pose proof (reachable_inv s Hr) as Hi. split.
  - destruct (connected s) eqn:Hc.
    + destruct (connected_tick i s Hi Hc) as (Hw & _ & _).
      eexists. split; [exact Hw|]. unfold tick_output.
      destruct (_ <=? _); [right; left | left]; reflexivity.
    + pose proof (disconnected_tick i s Hi Hc) as H. cbv zeta in H.
      destruct (scanFound i && negb (failed (outcome i))).
      * destruct H as (_ & [Hw | Hw]); eexists; (split; [exact Hw|]); unfold tick_output;
          [right; right; left | right; right; right]; reflexivity.
      * destruct H as (_ & Hw & _). exists []. rewrite app_nil_r.
        split; [exact Hw | left; reflexivity].
  - intros j Hc Hn. destruct Hi as [Hd _].
    rewrite (loop_connected i s Hc Hd), (loop_connected j s Hc Hd), Hn. reflexivity.
Qed.

Lemma tick_writes_at_most_bind_then_query_witness :
  exists extra,
    written (fst (loop first_tick initial)) = written initial ++ extra
    /\ tick_output extra.
Proof.
  assert (Hr : reachable initial) by (exists []; reflexivity).
  exact (proj1 (tick_writes_at_most_bind_then_query initial first_tick Hr)).
Defined.

(** X12. A pass of [loop] over a reachable, disconnected session in which
    the scan does not find the fridge, or finds it and the connect fails at
    any stage, writes no frame, leaves the timer, and ends [Disconnected]
    with no connect pending: the next pass scans again. *)
Theorem failed_connect_back_to_scanning (s : Session) (i : TickInput) :
  reachable s -> connected s = false ->
  scanFound i && negb (failed (outcome i)) = false ->
  let s' := fst (loop i s) in
  phase s' = Disconnected
  /\ doConnect s' = false
  /\ written s' = written s
  /\ lastQueryMillis s' = lastQueryMillis s.
Proof.
  intros Hr Hc Hf. cbv zeta.
  pose proof (disconnected_tick i s (reachable_inv s Hr) Hc) as H. cbv zeta in H.
  rewrite Hf in H. destruct H as (Hc' & Hw & Hl).
  assert (Hd : doConnect (fst (loop i s)) = false).
  { apply (reachable_inv (step s (Tick i))). apply reachable_step, Hr. }
  unfold phase. rewrite Hc', Hd. repeat split; assumption.
Qed.

Lemma failed_connect_back_to_scanning_witness :
  phase (fst (loop (mkTick true (NotifyNotFound 1) 1200 1500 blank_status) initial))
  = Disconnected
  /\ written (fst (loop (mkTick true (NotifyNotFound 1) 1200 1500 blank_status) initial))
     = [].
Proof.
  assert (Hr : reachable initial) by (exists []; reflexivity).
  pose proof (failed_connect_back_to_scanning initial
                (mkTick true (NotifyNotFound 1) 1200 1500 blank_status)
                Hr eq_refl eq_refl) as H.
  split; [exact (proj1 H) | exact (proj1 (proj2 (proj2 H)))].
Defined.

(** ** The timer across the roll-over of [millis()] *)




(** ** Notifications and the other events *)

Lemma slot_disconnects (es : list Event) :
  Forall (fun e => e = Disconnect) es ->
  forall s, slot (run s es) = slot s.
Proof.
  induction 1 as [| e es He _ IH]; intros s; [reflexivity|].
  subst e. unfold run in *. cbn [fold_left]. rewrite IH. reflexivity.
Qed.

(** X14. A notification is not lost when the link drops: after a
    notification [d] and any number of disconnect events, the next pass of
    [loop] decodes [d], whatever state the session was in. *)
Theorem pending_notification_survives_disconnect
  (s : Session) (d : list byte) (es : list Event) (i : TickInput) :
  Forall (fun e => e = Disconnect) es ->
  snd (loop i (run (step s (Notification d)) es))
  = Some (decodeFridgeQuerySingleZone d (st i)).
Proof.
  intros He. pose proof (slot_disconnects es He (step s (Notification d))) as Hs.
  cbn [step] in *. rewrite notifyCallback_eq in *.
  unfold slot in Hs. cbn in Hs. injection Hs as Hd Hf.
  rewrite (proj1 (loop_slot i _)), Hf, Hd. reflexivity.
Qed.

Lemma pending_notification_survives_disconnect_witness :
  snd (loop later_tick
         (run (step (run initial [Tick first_tick])
                 (Notification (response_head ++ sample_payload ++ [Byte.x05; Byte.x7b])))
            [Disconnect; Disconnect]))
  = Some (Some (true, mkStatus false true 1 2 (-4) 20 (-20) 2 0 0 0 0 0 0 (-3) 87 12 8)).
Proof.
  assert (He : Forall (fun e => e = Disconnect) [Disconnect; Disconnect])
    by (repeat constructor).
  rewrite (pending_notification_survives_disconnect _ _ _ later_tick He).
  exact (f_equal Some decode_sample).
Defined.

(** X15. A notification of fewer than 24 bytes, the empty one included, is
    reported by the next pass of [loop] as not decodable, the local record
    untouched, and the pass after it has nothing to report. *)
Theorem short_notification_reported_once
  (s : Session) (d : list byte) (i j : TickInput) :
  size d < 24 ->
  snd (loop i (notifyCallback d s)) = Some (Some (false, st i))
  /\ snd (loop j (fst (loop i (notifyCallback d s)))) = None.
Proof.
  intros Hd. rewrite notifyCallback_eq. split.
  - rewrite (proj1 (loop_slot i _)). cbn. rewrite decode_too_short by exact Hd.
    reflexivity.
  - rewrite (proj1 (loop_slot j _)).
    pose proof (proj2 (loop_slot i (set_newData true (set_data d s)))) as H.
    unfold slot in H. injection H as _ Hf. rewrite Hf. reflexivity.
Qed.

Lemma short_notification_reported_once_witness :
  snd (loop first_tick (notifyCallback [] initial)) = Some (Some (false, blank_status)).
Proof.
  assert (Hd : size [] < 24) by reflexivity.
  exact (proj1 (short_notification_reported_once initial [] first_tick later_tick Hd)).
Defined.

(** * The labels shown for a decoded frame *)

Lemma decode_true_report (data : list byte) (status r : FridgeStatus_t) :
  decodeFridgeQuerySingleZone data status = Some (true, r) -> r = report_of data.
Proof.
  rewrite decode_eq. destruct (accepts data); intros H; [|discriminate].
  injection H as H. symmetry. exact H.
Qed.

(** X16. For a frame the decoder accepts, the labels [loop] prints follow
    the bytes of the frame in this way: the lock is shown as YES only for
    byte 4 equal to 01, the power as ON only for byte 5 equal to 01, every
    other value giving NO and OFF; the run mode is UNKNOWN exactly for byte
    6 from 02 up, the battery saver Unknown exactly for byte 7 from 03 up;
    and the unit is °C only for byte 13 equal to 00, every other value
    giving °F. *)
Theorem labels_of_decoded_frame (data : list byte) (status r : FridgeStatus_t) :
  decodeFridgeQuerySingleZone data status = Some (true, r) ->
  (lockedStr r = "YES"%string <-> byte_at data 4 = Byte.x01)
  /\ (poweredOnStr r = "ON"%string <-> byte_at data 5 = Byte.x01)
  /\ (runModeStr r = "UNKNOWN"%string <-> 2 <= u8 (byte_at data 6))
  /\ (saverStr r = "Unknown"%string <-> 3 <= u8 (byte_at data 7))
  /\ (tempUnit r = "°C"%string <-> byte_at data 13 = Byte.x00).
Proof.
  intros H. apply decode_true_report in H. subst r.
  unfold lockedStr, poweredOnStr, runModeStr, saverStr, tempUnit, report_of.
  cbn [locked poweredOn runMode batSaver unit].
  pose proof (u8_range (byte_at data 6)) as R6.
  pose proof (u8_range (byte_at data 7)) as R7.
  repeat split.
  - destruct (Z.eqb_spec (u8 (byte_at data 4)) 1) as [E | E]; [|discriminate].
    intros _. apply byte.unsigned_inj. exact E.
  - intros E. rewrite E. reflexivity.
  - destruct (Z.eqb_spec (u8 (byte_at data 5)) 1) as [E | E]; [|discriminate].
    intros _. apply byte.unsigned_inj. exact E.
  - intros E. rewrite E. reflexivity.
  - destruct (Z.eqb_spec (u8 (byte_at data 6)) 0); [discriminate|].
    destruct (Z.eqb_spec (u8 (byte_at data 6)) 1); [discriminate|]. intros _. lia.
  - intros Hge.
    destruct (Z.eqb_spec (u8 (byte_at data 6)) 0); [lia|].
    destruct (Z.eqb_spec (u8 (byte_at data 6)) 1); [lia|]. reflexivity.
  - cbv zeta.
    destruct (Z.eqb_spec (u8 (byte_at data 7)) 2); [discriminate|].
    destruct (Z.eqb_spec (u8 (byte_at data 7)) 1); [discriminate|].
    destruct (Z.eqb_spec (u8 (byte_at data 7)) 0); [discriminate|]. intros _. lia.
  - intros Hge. cbv zeta.
    destruct (Z.eqb_spec (u8 (byte_at data 7)) 2); [lia|].
    destruct (Z.eqb_spec (u8 (byte_at data 7)) 1); [lia|].
    destruct (Z.eqb_spec (u8 (byte_at data 7)) 0); [lia|]. reflexivity.
  - destruct (Z.eqb_spec (u8 (byte_at data 13)) 0) as [E | E]; [|discriminate].
    intros _. apply byte.unsigned_inj. exact E.
  - intros E. rewrite E. reflexivity.
Qed.

Lemma labels_of_decoded_frame_witness :
  runModeStr (mkStatus false true 1 2 (-4) 20 (-20) 2 0 0 0 0 0 0 (-3) 87 12 8)
  <> "UNKNOWN"%string
  /\ tempUnit (mkStatus false true 1 2 (-4) 20 (-20) 2 0 0 0 0 0 0 (-3) 87 12 8)
     = "°C"%string.
Proof.
  pose proof (labels_of_decoded_frame _ _ _ decode_sample) as (_ & _ & Hr & _ & Hu).
  split.
  - intros E. apply Hr in E. revert E. vm_compute. intros E. apply E. reflexivity.
  - apply Hu. reflexivity.
Defined.
